(** * Recipe processor: a shallow embedding of [recipe_processor.py]

    The development follows the Python module function by function:
    [clean_ingredient], [extract_quantity_and_unit], [categorize_ingredient],
    [process_ingredients_list], [merge_shopping_lists],
    [extract_cooking_instructions] and [generate_recipe_summary].

    Python strings are sequences of code points.  The model keeps the code
    points U+0000..U+00FF (one [ascii] per code point, so ["sauté"] has five
    characters, the last one being 233); [str.lower], [str.strip] and the
    classes [\s], [\d] and [.] of the [re] module are modelled on that range
    as CPython defines them there. *)

From Stdlib Require Import Ascii String.
From Stdlib Require Import List Bool Arith NArith Lia.
From Stdlib Require Import Sorting.Sorted.
Import ListNotations.

Set Implicit Arguments.

(* ------------------------------------------------------------------ *)
(** ** Strings and characters *)

Definition str := list ascii.

(** A string literal of the source, as a sequence of characters. *)
Definition py (s : string) : str := list_ascii_of_string s.

Definition code (c : ascii) : N := N_of_ascii c.

Definition in_range (lo hi : N) (c : ascii) : bool :=
  ((lo <=? code c) && (code c <=? hi))%N.

(** [str.isspace] on one character, which is also the class [\s] of [re] on
    [str] patterns: TAB..CR, FS..US, SPACE, NEL and NBSP. *)
Definition isspace (c : ascii) : bool :=
  in_range 9 13 c || in_range 28 32 c || (code c =? 133)%N || (code c =? 160)%N.

(** The class [\d]: a decimal digit. *)
Definition isdigit (c : ascii) : bool := in_range 48 57 c.

(** The class [.] (no DOTALL flag): anything but a newline. *)
Definition dot (c : ascii) : bool := negb (code c =? 10)%N.

(** Upper-case letters: A..Z, and À..Þ without the multiplication sign. *)
Definition isupper (c : ascii) : bool :=
  in_range 65 90 c || (in_range 192 222 c && negb (code c =? 215)%N).

Definition lower_char (c : ascii) : ascii :=
  if isupper c then ascii_of_N (code c + 32) else c.

(** [s.lower()] *)
Definition lower (s : str) : str := map lower_char s.

Fixpoint lstrip (s : str) : str :=
  match s with
  | c :: s' => if isspace c then lstrip s' else s
  | [] => []
  end.

Definition rstrip (s : str) : str := rev (lstrip (rev s)).

(** [s.strip()] *)
Definition strip (s : str) : str := rstrip (lstrip s).

Definition str_eqb (a b : str) : bool :=
  if list_eq_dec ascii_dec a b then true else false.

(** [s.startswith(w)], the test behind every literal of a pattern. *)
Fixpoint starts_with (w s : str) : bool :=
  match w, s with
  | [], _ => true
  | a :: w', b :: s' => (code a =? code b)%N && starts_with w' s'
  | _ :: _, [] => false
  end.

(** [w in s] on strings: [w] occurs in [s] as a substring. *)
Fixpoint contains (w s : str) : bool :=
  starts_with w s ||
  match s with
  | [] => false
  | _ :: s' => contains w s'
  end.

(** The order of [sorted] on strings: lexicographic on code points. *)
Fixpoint str_ltb (a b : str) : bool :=
  match a, b with
  | _, [] => false
  | [], _ :: _ => true
  | x :: a', y :: b' =>
      if (code x <? code y)%N then true
      else if (code x =? code y)%N then str_ltb a' b'
      else false
  end.

Definition str_lt (a b : str) : Prop := str_ltb a b = true.

(* ------------------------------------------------------------------ *)
(** ** The fragment of [re] that the module uses

    A backtracking matcher in continuation-passing style: alternatives are
    tried left to right, [?], [*] and [+] are greedy, and the first way of
    matching the whole pattern wins, as in [re].  Repetition is only ever
    applied to one-character classes in the source ([\d+], [\s*], [.+], ...),
    which is what [Star] covers. *)

Inductive regex : Type :=
| Eps : regex                          (* the empty pattern *)
| Str : str -> regex                   (* a literal word *)
| Class : (ascii -> bool) -> regex     (* one character of a class *)
| Star : (ascii -> bool) -> regex      (* [c*], greedy *)
| Seq : regex -> regex -> regex
| Alt : regex -> regex -> regex        (* [r1|r2] *)
| Opt : regex -> regex                 (* [(?:r)?], greedy *)
| Group : nat -> regex -> regex.       (* capturing group number n *)

(** [c+] *)
Definition Plus (cls : ascii -> bool) : regex := Seq (Class cls) (Star cls).

(** ['|'.join(words)] inside a group *)
Fixpoint alt_join (ws : list str) : regex :=
  match ws with
  | [] => Eps
  | [w] => Str w
  | w :: ws' => Alt (Str w) (alt_join ws')
  end.

(** Captured groups, most recent first. *)
Definition captures := list (nat * str).

Fixpoint group (n : nat) (caps : captures) : str :=
  match caps with
  | [] => []
  | (m, v) :: caps' => if Nat.eqb n m then v else group n caps'
  end.

Definition or_else {A} (x y : option A) : option A :=
  match x with
  | Some _ => x
  | None => y
  end.

Section Matcher.
Variable A : Type.

Fixpoint star_m (cls : ascii -> bool) (s : str) (k : str -> option A)
  : option A :=
  match s with
  | c :: s' => if cls c then or_else (star_m cls s' k) (k s) else k s
  | [] => k []
  end.

(** [re_m r s caps k] matches [r] at the front of [s] and hands the rest of
    the input and the groups to [k]; when [k] fails, the next way of
    matching [r] is tried. *)
Fixpoint re_m (r : regex) (s : str) (caps : captures)
         (k : str -> captures -> option A) : option A :=
  match r with
  | Eps => k s caps
  | Str w => if starts_with w s then k (skipn (length w) s) caps else None
  | Class cls =>
      match s with
      | c :: s' => if cls c then k s' caps else None
      | [] => None
      end
  | Star cls => star_m cls s (fun s' => k s' caps)
  | Seq r1 r2 => re_m r1 s caps (fun s' caps' => re_m r2 s' caps' k)
  | Alt r1 r2 => or_else (re_m r1 s caps k) (re_m r2 s caps k)
  | Opt r1 => or_else (re_m r1 s caps k) (k s caps)
  | Group n r1 =>
      re_m r1 s caps
           (fun s' caps' =>
              k s' ((n, firstn (length s - length s') s) :: caps'))
  end.
End Matcher.

(** [re.match(pattern, s)]: the groups of the match at the start of [s]. *)
Definition re_match (r : regex) (s : str) : option captures :=
  re_m r s [] (fun _ caps => Some caps).

(** [re.search(pattern, s)]: the leftmost match. *)
Fixpoint re_search (r : regex) (s : str) : option captures :=
  or_else (re_match r s)
          match s with
          | [] => None
          | _ :: s' => re_search r s'
          end.

Definition truthy {A} (m : option A) : bool :=
  match m with
  | Some _ => true
  | None => false
  end.

(** [re.sub(cls+, repl, s)]: every maximal run of [cls] becomes [repl].
    [in_run] tells that the previous character belonged to the run. *)
Fixpoint sub_runs (cls : ascii -> bool) (repl : str) (in_run : bool) (s : str)
  : str :=
  match s with
  | [] => []
  | c :: s' =>
      if cls c then
        if in_run then sub_runs cls repl true s'
        else repl ++ sub_runs cls repl true s'
      else c :: sub_runs cls repl false s'
  end.

Definition re_sub_runs (cls : ascii -> bool) (repl s : str) : str :=
  sub_runs cls repl false s.

(** [re.split(cls+, s)]: the pieces between the maximal runs of [cls]; a run
    at either end leaves an empty piece there. *)
Fixpoint split_runs (cls : ascii -> bool) (in_run : bool) (s : str)
  : list str :=
  match s with
  | [] => [[]]
  | c :: s' =>
      if cls c then
        if in_run then split_runs cls true s'
        else [] :: split_runs cls true s'
      else
        match split_runs cls false s' with
        | p :: ps => (c :: p) :: ps
        | [] => [[c]]
        end
  end.

Definition re_split_runs (cls : ascii -> bool) (s : str) : list str :=
  split_runs cls false s.

(* ------------------------------------------------------------------ *)
(** ** [RecipeProcessor.__init__]: the lexicon and the unit vocabulary *)

(** A [dict] keeps its keys in insertion order: a list of pairs. *)
Definition dict (V : Type) := list (str * V).

Definition food_categories : dict (list str) :=
  [ (py "Produce",
     map py ["onion"; "garlic"; "tomato"; "carrot"; "celery"; "pepper";
             "lettuce"; "spinach"; "broccoli"; "mushroom"; "lemon"; "lime";
             "apple"; "banana"; "potato"; "herbs"]%string);
    (py "Meat & Seafood",
     map py ["chicken"; "beef"; "pork"; "fish"; "salmon"; "shrimp"; "turkey";
             "bacon"; "ground beef"; "sausage"; "lamb"]%string);
    (py "Dairy & Eggs",
     map py ["milk"; "cheese"; "butter"; "yogurt"; "cream"; "eggs";
             "sour cream"; "mozzarella"; "parmesan"; "cheddar"]%string);
    (py "Pantry Staples",
     map py ["flour"; "sugar"; "salt"; "pepper"; "oil"; "vinegar"; "pasta";
             "rice"; "beans"; "spices"; "sauce"; "stock"; "broth"]%string);
    (py "Frozen",
     map py ["frozen vegetables"; "frozen fruit"; "ice cream";
             "frozen pizza"]%string);
    (py "Bakery",
     map py ["bread"; "rolls"; "bagels"; "croissants"; "tortillas"]%string);
    (py "Condiments",
     map py ["ketchup"; "mustard"; "mayo"; "hot sauce"; "soy sauce";
             "worcestershire"]%string) ].

Definition units : list str :=
  map py ["cup"; "cups"; "tablespoon"; "tablespoons"; "tbsp"; "teaspoon";
          "teaspoons"; "tsp"; "ounce"; "ounces"; "oz"; "pound"; "pounds";
          "lb"; "lbs"; "gram"; "grams"; "g"; "kilogram"; "kg"; "milliliter";
          "ml"; "liter"; "liters"; "pint"; "quart"; "gallon"; "pinch"; "dash";
          "handful"; "clove"; "cloves"; "piece"; "pieces"; "slice";
          "slices"]%string.

(* ------------------------------------------------------------------ *)
(** ** [clean_ingredient] *)

Definition clean_ingredient (ingredient : str) : str :=
  let ingredient := re_sub_runs isspace (py " ") (strip ingredient) in
  lower ingredient.

(* ------------------------------------------------------------------ *)
(** ** [extract_quantity_and_unit] *)

Definition is_char (x : string) (c : ascii) : bool :=
  existsb (fun d => (code c =? code d)%N) (py x).

(** [\d+(?:\.\d+)?] *)
Definition number_re : regex :=
  Seq (Plus isdigit) (Opt (Seq (Str (py ".")) (Plus isdigit))).

(** [\d+(?:\.\d+)?(?:\s*[-/]\s*\d+(?:\.\d+)?)?] *)
Definition quantity_re : regex :=
  Seq number_re
      (Opt (Seq (Star isspace)
                (Seq (Class (is_char "-/")) (Seq (Star isspace) number_re)))).

(** [\s*(?:of\s+)?(.+)] *)
Definition item_re : regex :=
  Seq (Star isspace)
      (Seq (Opt (Seq (Str (py "of")) (Plus isspace)))
           (Group 3 (Plus dot))).

(** [(quantity)\s*(units)\s*(?:of\s+)?(.+)] *)
Definition pattern : regex :=
  Seq (Group 1 quantity_re)
      (Seq (Star isspace) (Seq (Group 2 (alt_join units)) item_re)).

(** [(quantity)\s+(.+)] *)
Definition quantity_pattern : regex :=
  Seq (Group 1 quantity_re) (Seq (Plus isspace) (Group 2 (Plus dot))).

Definition extract_quantity_and_unit (ingredient : str) : str * str * str :=
  match re_match pattern (lower ingredient) with
  | Some m => (group 1 m, group 2 m, group 3 m)
  | None =>
      match re_match quantity_pattern (lower ingredient) with
      | Some m => (group 1 m, py "", group 2 m)
      | None => (py "", py "", ingredient)
      end
  end.

(* ------------------------------------------------------------------ *)
(** ** [categorize_ingredient] *)

(** The inner loop: [keyword in ingredient_lower] for some keyword. *)
Definition any_keyword_in (keywords : list str) (ingredient_lower : str)
  : bool :=
  existsb (fun keyword => contains keyword ingredient_lower) keywords.

(** The outer loop over [food_categories.items()], leaving at the first hit. *)
Fixpoint first_category (items : dict (list str)) (ingredient_lower : str)
  : option str :=
  match items with
  | [] => None
  | (category, keywords) :: items' =>
      if any_keyword_in keywords ingredient_lower then Some category
      else first_category items' ingredient_lower
  end.

Definition categorize_ingredient (ingredient : str) : str :=
  let ingredient_lower := lower ingredient in
  match first_category food_categories ingredient_lower with
  | Some category => category
  | None => py "Other"
  end.

(* ------------------------------------------------------------------ *)
(** ** Dictionaries, [sorted] and [set] *)

Fixpoint dict_get {V} (k : str) (d : dict V) : option V :=
  match d with
  | [] => None
  | (k', v) :: d' => if str_eqb k k' then Some v else dict_get k d'
  end.

(** [d[k] = v]: an existing key keeps its place, a new one goes last. *)
Fixpoint dict_set {V} (d : dict V) (k : str) (v : V) : dict V :=
  match d with
  | [] => [(k, v)]
  | (k', v') :: d' =>
      if str_eqb k k' then (k', v) :: d' else (k', v') :: dict_set d' k v
  end.

(** [d[k]] on a [defaultdict(list)]: a missing key reads as the empty list. *)
Definition dd_get {V} (d : dict (list V)) (k : str) : list V :=
  match dict_get k d with
  | Some v => v
  | None => []
  end.

Definition keys {V} (d : dict V) : list str := map fst d.

(** Two dictionaries with the same content: Python's [==] on [dict]. *)
Definition dict_eq {V} (d1 d2 : dict V) : Prop :=
  forall k, dict_get k d1 = dict_get k d2.

Fixpoint insert_sorted (x : str) (l : list str) : list str :=
  match l with
  | [] => [x]
  | y :: l' => if str_ltb y x then y :: insert_sorted x l' else x :: y :: l'
  end.

(** [sorted(l)] on strings (a stable sort by [<]). *)
Definition sorted (l : list str) : list str := fold_right insert_sorted [] l.

(** One possible [list(set(l))]: the elements in order of first occurrence. *)
Fixpoint first_seen (l : list str) : list str :=
  match l with
  | [] => []
  | x :: l' => x :: filter (fun y => negb (str_eqb x y)) (first_seen l')
  end.

(* ------------------------------------------------------------------ *)
(** ** Records of [generate_recipe_summary] *)

(** A video record of the input; every key may be missing. *)
Module Video.
Record t : Type := Make {
  title : option str;
  video_id : option str;
  channel_title : option str;
  transcript : option str
}.
End Video.

Module Tutorial.
Record t : Type := Make {
  title : str;
  video_id : str;
  channel : str;
  url : str
}.
End Tutorial.

Module RecipeData.
Record t : Type := Make {
  dish_name : option str;
  videos : option (list Video.t);
  ingredients : option (list str)
}.
End RecipeData.

Module Summary.
Record t : Type := Make {
  dish_name : str;
  total_videos : nat;
  categorized_ingredients : dict (list str);
  cooking_instructions : list str;
  video_tutorials : list Tutorial.t
}.
End Summary.

(** [d.get(key, default)] *)
Definition get_or {A} (field : option A) (default : A) : A :=
  match field with
  | Some v => v
  | None => default
  end.

(* ------------------------------------------------------------------ *)
(** ** [extract_cooking_instructions] *)

Definition sequencing_words : list str :=
  map py ["first"; "then"; "next"; "after"; "now"; "finally"]%string.

Definition action_verbs : list str :=
  map py ["heat"; "cook"; "add"; "mix"; "stir"; "pour"; "place"; "put";
          "season"; "serve"]%string.

Definition saute : str := py "saut" ++ [ascii_of_N 233].

Definition method_verbs : list str :=
  [py "preheat"; py "boil"; py "simmer"; saute; py "fry"; py "bake";
   py "roast"; py "grill"].

(** [(w1|w2|...).*] *)
Definition words_pattern (ws : list str) : regex :=
  Seq (Group 1 (alt_join ws)) (Star dot).

Definition instruction_patterns : list regex :=
  [words_pattern sequencing_words;
   words_pattern action_verbs;
   words_pattern method_verbs].

(** The loop over the patterns, left at the first one that is found. *)
Definition matches_instruction_pattern (sentence : str) : bool :=
  existsb (fun pattern => truthy (re_search pattern (lower sentence)))
          instruction_patterns.

Definition extract_cooking_instructions (transcript : str) : list str :=
  let sentences := re_split_runs (is_char ".!?") transcript in
  let instructions :=
    fold_left
      (fun instructions sentence =>
         let sentence := strip sentence in
         if 10 <? length sentence then
           if matches_instruction_pattern sentence
           then instructions ++ [sentence]
           else instructions
         else instructions)
      sentences [] in
  firstn 10 instructions.

(* ------------------------------------------------------------------ *)
(** ** The functions that go through [set]

    The order in which a [set] is iterated is not fixed by the language, so
    [list(set(l))] is a parameter: some duplicate-free list with the elements
    of [l]. *)

Section Processor.
Variable list_of_set : list str -> list str.

(** [process_ingredients_list] *)

Definition category_order : list str :=
  map py ["Produce"; "Meat & Seafood"; "Dairy & Eggs"; "Pantry Staples";
          "Bakery"; "Condiments"; "Frozen"; "Other"]%string.

Definition categorize_all (ingredients : list str) : dict (list str) :=
  fold_left
    (fun categorized ingredient =>
       let cleaned := clean_ingredient ingredient in
       if negb (length cleaned =? 0) && (2 <? length cleaned) then
         let category := categorize_ingredient cleaned in
         dict_set categorized category
                  (dd_get categorized category ++ [cleaned])
       else categorized)
    ingredients [].

Definition process_ingredients_list (ingredients : list str)
  : dict (list str) :=
  let categorized := categorize_all ingredients in
  fold_left
    (fun result category =>
       match dict_get category categorized with
       | Some items => dict_set result category (sorted (list_of_set items))
       | None => result
       end)
    category_order [].

(** [merge_shopping_lists] *)

Definition merge_all (lists : list (dict (list str))) : dict (list str) :=
  fold_left
    (fun merged shopping_list =>
       fold_left
         (fun merged '(category, items) =>
            dict_set merged category (dd_get merged category ++ items))
         shopping_list merged)
    lists [].

Definition merge_shopping_lists (lists : list (dict (list str)))
  : dict (list str) :=
  fold_left
    (fun result '(category, items) =>
       dict_set result category (sorted (list_of_set items)))
    (merge_all lists) [].

(** [generate_recipe_summary] *)

Definition watch_url (video_id : str) : str :=
  py "https://www.youtube.com/watch?v=" ++ video_id.

Definition summarize_videos (videos : list Video.t)
  : list str * list Tutorial.t :=
  fold_left
    (fun '(instructions, tutorials) video =>
       let transcript := get_or (Video.transcript video) (py "") in
       if negb (length transcript =? 0) then
         (instructions ++ extract_cooking_instructions transcript,
          tutorials ++
            [Tutorial.Make (get_or (Video.title video) (py ""))
                           (get_or (Video.video_id video) (py ""))
                           (get_or (Video.channel_title video) (py ""))
                           (watch_url (get_or (Video.video_id video) (py "")))])
       else (instructions, tutorials))
    videos ([], []).

Definition generate_recipe_summary (recipe_data : RecipeData.t) : Summary.t :=
  let videos := get_or (RecipeData.videos recipe_data) [] in
  let all_ingredients := get_or (RecipeData.ingredients recipe_data) [] in
  let '(instructions, tutorials) := summarize_videos videos in
  Summary.Make
    (get_or (RecipeData.dish_name recipe_data) (py "Unknown Dish"))
    (length videos)
    (process_ingredients_list all_ingredients)
    (firstn 15 (list_of_set instructions))
    tutorials.

End Processor.

(* ------------------------------------------------------------------ *)
(** ** Vocabulary of the statements *)

(** The lower-cased ingredient contains a keyword of [category]. *)
Definition hits (category : str) (ingredient : str) : bool :=
  match dict_get category food_categories with
  | Some keywords => any_keyword_in keywords (lower ingredient)
  | None => false
  end.

Fixpoint index_of (c : str) (order : list str) : option nat :=
  match order with
  | [] => None
  | x :: order' =>
      if str_eqb c x then Some 0 else option_map S (index_of c order')
  end.

(** [c1] comes before [c2] in the enumeration [order]. *)
Definition enumerated_before (order : list str) (c1 c2 : str) : bool :=
  match index_of c1 order, index_of c2 order with
  | Some i, Some j => i <? j
  | _, _ => false
  end.

(** The order of the categories as the specification enumerates them. *)
Definition spec_category_order : list str :=
  map py ["Produce"; "Meat & Seafood"; "Dairy & Eggs"; "Pantry Staples";
          "Bakery"; "Condiments"; "Frozen"]%string.

(* ------------------------------------------------------------------ *)
(** ** Facts about characters and strings *)

Lemma code_inj (a b : ascii) : code a = code b -> a = b.
Proof.
  unfold code; intros H.
  rewrite <- (ascii_N_embedding a), <- (ascii_N_embedding b).
  now rewrite H.
Qed.

Lemma code_eqb_eq (a b : ascii) : (code a =? code b)%N = true <-> a = b.
Proof.
  rewrite N.eqb_eq; split; [apply code_inj | now intros ->].
Qed.

Lemma str_eqb_eq (a b : str) : str_eqb a b = true <-> a = b.
Proof.
  unfold str_eqb; destruct (list_eq_dec ascii_dec a b); split;
    congruence.
Qed.

Lemma str_eqb_neq (a b : str) : str_eqb a b = false <-> a <> b.
Proof.
  unfold str_eqb; destruct (list_eq_dec ascii_dec a b); split;
    congruence.
Qed.

Lemma str_eqb_refl (a : str) : str_eqb a a = true.
Proof. now apply str_eqb_eq. Qed.

Lemma isspace_lower_char (c : ascii) : isspace (lower_char c) = isspace c.
Proof. destruct c as [[] [] [] [] [] [] [] []]; reflexivity. Qed.

Lemma isupper_lower_char (c : ascii) : isupper (lower_char c) = false.
Proof. destruct c as [[] [] [] [] [] [] [] []]; reflexivity. Qed.

Lemma lower_char_idem (c : ascii) : lower_char (lower_char c) = lower_char c.
Proof.
  unfold lower_char at 1; now rewrite isupper_lower_char.
Qed.

Lemma lower_idem (s : str) : lower (lower s) = lower s.
Proof.
  unfold lower; rewrite map_map; apply map_ext, lower_char_idem.
Qed.

Lemma starts_with_iff (w s : str) :
  starts_with w s = true <-> exists post, s = w ++ post.
Proof.
  revert s; induction w as [|a w IH]; intros s; simpl.
  - split; [intros _; now exists s | reflexivity].
  - destruct s as [|b s].
    + split; [discriminate | intros [post H]; discriminate].
    + rewrite andb_true_iff, code_eqb_eq, IH; split.
      * intros [-> [post ->]]; now exists post.
      * intros [post H]; injection H as -> ->; split; [reflexivity|].
        now exists post.
Qed.

Lemma contains_iff (w s : str) :
  contains w s = true <-> exists pre post, s = pre ++ w ++ post.
Proof.
  induction s as [|c s IH]; simpl.
  - rewrite orb_false_r, starts_with_iff; split.
    + intros [post H]; now exists [], post.
    + intros [pre [post H]]; destruct pre; [now exists post | discriminate].
  - rewrite orb_true_iff, starts_with_iff, IH; split.
    + intros [[post H] | [pre [post H]]].
      * now exists [], post.
      * exists (c :: pre), post; now rewrite H.
    + intros [[|c' pre] [post H]].
      * left; now exists post.
      * right; injection H as _ H; now exists pre, post.
Qed.

Lemma contains_lower (w s : str) :
  contains w s = true -> contains (lower w) (lower s) = true.
Proof.
  rewrite !contains_iff; intros [pre [post ->]].
  exists (lower pre), (lower post); unfold lower; now rewrite !map_app.
Qed.

Lemma existsb_orb {A} (f g : A -> bool) (l : list A) :
  existsb (fun x => f x || g x) l = existsb f l || existsb g l.
Proof.
  induction l as [|x l IH]; simpl; [reflexivity|].
  rewrite IH; destruct (f x), (g x), (existsb f l); reflexivity.
Qed.

Lemma existsb_same {A} (f g : A -> bool) (l : list A) :
  (forall x, f x = g x) -> existsb f l = existsb g l.
Proof.
  intros H; induction l as [|x l IH]; simpl; [reflexivity|].
  now rewrite H, IH.
Qed.

(* ------------------------------------------------------------------ *)
(** ** Facts about the matcher *)

Lemma truthy_or_else {A} (x y : option A) :
  truthy (or_else x y) = truthy x || truthy y.
Proof. destruct x, y; reflexivity. Qed.

(** A repetition followed by something that always matches always matches. *)
Lemma star_m_total {A} (cls : ascii -> bool) (s : str) (k : str -> option A) :
  (forall s', truthy (k s') = true) -> truthy (star_m cls s k) = true.
Proof.
  intros Hk; induction s as [|c s IH]; simpl; [apply Hk|].
  destruct (cls c); [|apply Hk].
  now rewrite truthy_or_else, IH.
Qed.

(** The groups that a pattern can set. *)
Fixpoint has_group (n : nat) (r : regex) : bool :=
  match r with
  | Group m r1 => Nat.eqb n m || has_group n r1
  | Seq r1 r2 | Alt r1 r2 => has_group n r1 || has_group n r2
  | Opt r1 => has_group n r1
  | Eps | Str _ | Class _ | Star _ => false
  end.

Lemma or_else_Some {A} (x y : option A) (res : A) :
  or_else x y = Some res -> x = Some res \/ (x = None /\ y = Some res).
Proof. destruct x; simpl; auto. Qed.

Lemma star_m_inv {A} (cls : ascii -> bool) (s : str) (k : str -> option A)
      (res : A) :
  star_m cls s k = Some res -> exists s', k s' = Some res.
Proof.
  induction s as [|c s IH]; simpl; [intros H; now exists []|].
  destruct (cls c); [|intros H; now exists (c :: s)].
  intros H; apply or_else_Some in H as [H | [_ H]]; [now apply IH|].
  now exists (c :: s).
Qed.

(** A match is a result of the continuation, which sees group [n] as it
    was when the pattern cannot set it. *)
Lemma re_m_keeps_group {A} (n : nat) (r : regex) :
  has_group n r = false ->
  forall (s : str) (caps : captures) (k : str -> captures -> option A)
         (res : A),
    re_m r s caps k = Some res ->
    exists s' caps', k s' caps' = Some res /\ group n caps' = group n caps.
Proof.
  induction r as [|w|cls|cls|r1 IH1 r2 IH2|r1 IH1 r2 IH2|r1 IH1|m r1 IH1];
    cbn [has_group re_m]; intros Hn s caps k res H.
  - now exists s, caps.
  - destruct (starts_with w s); [|discriminate].
    now exists (skipn (length w) s), caps.
  - destruct s as [|c s]; [discriminate|].
    destruct (cls c); [|discriminate].
    now exists s, caps.
  - apply star_m_inv in H as [s' H]; now exists s', caps.
  - apply orb_false_iff in Hn as [Hn1 Hn2].
    apply (IH1 Hn1) in H as (s1 & caps1 & H & E1).
    apply (IH2 Hn2) in H as (s2 & caps2 & H & E2).
    exists s2, caps2; split; [exact H | congruence].
  - apply orb_false_iff in Hn as [Hn1 Hn2].
    apply or_else_Some in H as [H | [_ H]]; [now apply (IH1 Hn1) in H|].
    now apply (IH2 Hn2) in H.
  - apply or_else_Some in H as [H | [_ H]]; [now apply (IH1 Hn) in H|].
    now exists s, caps.
  - apply orb_false_iff in Hn as [Hm Hn1].
    apply (IH1 Hn1) in H as (s1 & caps1 & H & E1).
    exists s1, ((m, firstn (length s - length s1) s) :: caps1).
    split; [exact H|]; cbn [group]; now rewrite Hm.
Qed.

(** An alternation of words matches with one of its words. *)
Lemma alt_join_inv {A} (ws : list str) (s : str) (caps : captures)
      (k : str -> captures -> option A) (res : A) :
  ws <> [] ->
  re_m (alt_join ws) s caps k = Some res ->
  exists w, In w ws /\ starts_with w s = true
            /\ k (skipn (length w) s) caps = Some res.
Proof.
  intros Hne; induction ws as [|w ws IH]; [congruence|].
  destruct ws as [|w' ws].
  - cbn [alt_join re_m]; destruct (starts_with w s) eqn:E; [|discriminate].
    intros H; exists w; repeat split; [now left | exact E | exact H].
  - change (alt_join (w :: w' :: ws)) with (Alt (Str w) (alt_join (w' :: ws))).
    cbn [re_m]; intros H; apply or_else_Some in H as [H | [_ H]].
    + destruct (starts_with w s) eqn:E; [|discriminate].
      exists w; repeat split; [now left | exact E | exact H].
    + destruct (IH ltac:(discriminate) H) as (w0 & Hin & Hw).
      exists w0; split; [now right | exact Hw].
Qed.

Lemma firstn_matched (w s : str) :
  starts_with w s = true ->
  firstn (length s - length (skipn (length w) s)) s = w.
Proof.
  intros H; apply starts_with_iff in H as [post ->].
  rewrite skipn_app, Nat.sub_diag, skipn_all, length_app; simpl.
  replace (length w + length post - length post) with (length w + 0) by lia.
  now rewrite firstn_app_2, app_nil_r.
Qed.

(* ------------------------------------------------------------------ *)
(** ** The quantity and unit parser *)

(** C1 (what the code returns on the three inputs of the claim): on
    ["2 cups chopped onions"] the parser returns [("2", "cup", "s chopped
    onions")], because the alternative [cup] of the unit group is tried
    before [cups] and the rest of the pattern accepts what follows; on
    ["1/2 cup milk"] it returns [("1/2", "cup", "milk")]; and on ["a pinch of
    salt"], which has no leading digit, it returns [("", "", "a pinch of
    salt")]. *)
Theorem extract_quantity_and_unit_examples :
  extract_quantity_and_unit (py "2 cups chopped onions")
    = (py "2", py "cup", py "s chopped onions")
  /\ extract_quantity_and_unit (py "1/2 cup milk")
    = (py "1/2", py "cup", py "milk")
  /\ extract_quantity_and_unit (py "a pinch of salt")
    = (py "", py "", py "a pinch of salt").
Proof. repeat split; vm_compute; reflexivity. Qed.

(** After the unit, a letter and whatever follows it are an item. *)
Lemma item_re_after_letter (s : str) (caps : captures) :
  truthy (re_m item_re ("s"%char :: s) caps (fun _ caps' => Some caps')) = true.
Proof.
  unfold item_re, Plus; cbn [re_m star_m starts_with]; simpl.
  now apply star_m_total.
Qed.

(** The alternative [cups] of the unit group is dead: whenever it could
    match, [cup], tried before it, already matches with the [s] going to
    the item. *)
Lemma unit_cups_unreachable (ingredient : str) :
  snd (fst (extract_quantity_and_unit ingredient)) <> py "cups".
Proof.
  unfold extract_quantity_and_unit.
  destruct (re_match pattern (lower ingredient)) as [m|] eqn:Hm;
    [|destruct (re_match quantity_pattern (lower ingredient));
      cbn [fst snd]; discriminate].
  cbn [fst snd]; unfold re_match, pattern in Hm; cbn [re_m] in Hm.
  apply (@re_m_keeps_group _ 2 quantity_re eq_refl) in Hm
    as (s1 & caps1 & Hm & _).
  apply star_m_inv in Hm as (s2 & Hm).
  change (re_m (alt_join units) s2
            ((1, firstn (length (lower ingredient) - length s1)
                        (lower ingredient)) :: caps1)
            (fun s' caps' =>
               re_m item_re s' ((2, firstn (length s2 - length s') s2) :: caps')
                    (fun _ caps'' => Some caps'')) = Some m) in Hm.
  match type of Hm with
  | re_m _ _ ?c _ = _ => set (caps := c) in Hm
  end.
  set (k := fun (s' : str) (caps' : captures) =>
              re_m item_re s' ((2, firstn (length s2 - length s') s2) :: caps')
                   (fun _ caps'' => Some caps'')) in Hm.
  assert (Hk : forall w, starts_with w s2 = true ->
                         k (skipn (length w) s2) caps = Some m ->
                         group 2 m = w).
  { intros w Hw H; unfold k in H.
    apply (@re_m_keeps_group _ 2 item_re eq_refl) in H as (s' & caps' & H & E).
    injection H as <-; rewrite E; cbn [group Nat.eqb].
    now apply firstn_matched. }
  change units with (py "cup" :: py "cups" :: skipn 2 units) in Hm.
  change (alt_join (py "cup" :: py "cups" :: skipn 2 units))
    with (Alt (Str (py "cup"))
              (Alt (Str (py "cups")) (alt_join (skipn 2 units)))) in Hm.
  cbn [re_m] in Hm.
  apply or_else_Some in Hm as [Hm | [Hcup Hm]].
  - destruct (starts_with (py "cup") s2) eqn:E; [|discriminate].
    rewrite (Hk _ E Hm); discriminate.
  - apply or_else_Some in Hm as [Hm | [_ Hm]].
    + exfalso.
      destruct (starts_with (py "cups") s2) eqn:E; [|discriminate].
      apply starts_with_iff in E as [post ->].
      change (starts_with (py "cup") (py "cups" ++ post)) with true in Hcup.
      change (skipn (length (py "cup")) (py "cups" ++ post))
        with ("s"%char :: post) in Hcup.
      unfold k in Hcup.
      pose proof (item_re_after_letter post
                    ((2, firstn (length (py "cups" ++ post)
                                 - length ("s"%char :: post))
                                (py "cups" ++ post)) :: caps)) as Ht.
      now rewrite Hcup in Ht.
    + apply alt_join_inv in Hm as (w & Hin & Hw & Hm); [|discriminate].
      rewrite (Hk _ Hw Hm); intros ->.
      revert Hin; vm_compute; intuition discriminate.
Qed.

(* ------------------------------------------------------------------ *)
(** ** The category classifier *)

Lemma dict_get_In_keys {V} (k : str) (d : dict V) (v : V) :
  dict_get k d = Some v -> In k (keys d).
Proof.
  induction d as [|[k' v'] d IH]; simpl; [discriminate|].
  destruct (str_eqb k k') eqn:E.
  - apply str_eqb_eq in E as ->; now left.
  - intros H; right; now apply IH.
Qed.

Section FirstHit.
Variable ingredient_lower : str.

(** A keyword of [category], looked up in [items], occurs in the string. *)
Definition hits_in (items : dict (list str)) (category : str) : bool :=
  match dict_get category items with
  | Some keywords => any_keyword_in keywords ingredient_lower
  | None => false
  end.

Lemma first_category_no_hit (items : dict (list str)) :
  (forall c, hits_in items c = false) -> NoDup (keys items) ->
  first_category items ingredient_lower = None.
Proof.
  unfold hits_in.
  induction items as [|[c' kws] items IH]; simpl; intros H ND; [reflexivity|].
  inversion ND as [|? ? Hnin ND']; subst.
  pose proof (H c') as Hc; rewrite str_eqb_refl in Hc; rewrite Hc.
  apply IH; [|exact ND'].
  intros c; specialize (H c).
  destruct (str_eqb c c') eqn:E; [|exact H].
  apply str_eqb_eq in E as ->.
  destruct (dict_get c' items) eqn:G; [|reflexivity].
  now apply dict_get_In_keys in G.
Qed.

(** Of two categories that are hit, and are the only ones, the one that the
    dictionary holds first is returned. *)
Lemma first_category_earliest (items : dict (list str)) (c1 c2 : str) :
  NoDup (keys items) ->
  hits_in items c1 = true ->
  hits_in items c2 = true ->
  enumerated_before (keys items) c1 c2 = true ->
  (forall c, hits_in items c = true -> c = c1 \/ c = c2) ->
  first_category items ingredient_lower = Some c1.
Proof.
  unfold hits_in, enumerated_before.
  induction items as [|[c kws] items IH]; simpl; intros ND H1 H2 Hb Hall;
    [discriminate|].
  inversion ND as [|? ? Hnin ND']; subst.
  destruct (any_keyword_in kws ingredient_lower) eqn:E.
  - destruct (Hall c) as [-> | ->]; [now rewrite str_eqb_refl | reflexivity |].
    rewrite str_eqb_refl in Hb.
    destruct (str_eqb c1 c2); [discriminate|].
    destruct (index_of c1 (keys items)); discriminate.
  - destruct (str_eqb c1 c) eqn:E1; [congruence|].
    destruct (str_eqb c2 c) eqn:E2; [congruence|].
    apply IH; try assumption.
    + destruct (index_of c1 (keys items)), (index_of c2 (keys items));
        simpl in Hb; try discriminate; exact Hb.
    + intros c' Hc'; apply Hall.
      destruct (str_eqb c' c) eqn:E'; [|exact Hc'].
      apply str_eqb_eq in E' as ->.
      destruct (dict_get c items) eqn:G; [|discriminate].
      now apply dict_get_In_keys in G.
Qed.
End FirstHit.

Lemma food_categories_NoDup : NoDup (keys food_categories).
Proof.
  repeat (constructor; [simpl; intuition discriminate|]); constructor.
Qed.

(** C2 (amended): the classifier walks the lexicon in the order in which the
    dictionary declares it, Produce, Meat & Seafood, Dairy & Eggs, Pantry
    Staples, Frozen, Bakery, Condiments, and returns at the first keyword
    hit: when the lower-cased ingredient contains keywords of exactly two
    categories, the one that comes first in that order is returned. *)
Theorem categorize_ingredient_earliest_category :
  keys food_categories
    = map py ["Produce"; "Meat & Seafood"; "Dairy & Eggs"; "Pantry Staples";
              "Frozen"; "Bakery"; "Condiments"]%string
  /\ forall (ingredient c1 c2 : str),
      hits c1 ingredient = true ->
      hits c2 ingredient = true ->
      enumerated_before (keys food_categories) c1 c2 = true ->
      (forall c, hits c ingredient = true -> c = c1 \/ c = c2) ->
      categorize_ingredient ingredient = c1.
Proof.
  split; [reflexivity|].
  intros ingredient c1 c2 H1 H2 Hb Hall.
  unfold categorize_ingredient.
  now rewrite (@first_category_earliest (lower ingredient) food_categories
                 c1 c2 food_categories_NoDup H1 H2 Hb Hall).
Qed.

Lemma categorize_ingredient_earliest_category_witness :
  categorize_ingredient (py "Ketchup on frozen pizza") = py "Frozen".
Proof.
  apply (proj2 categorize_ingredient_earliest_category
               (py "Ketchup on frozen pizza") (py "Frozen") (py "Condiments")).
  - reflexivity.
  - reflexivity.
  - reflexivity.
  - intros c; unfold hits, food_categories; simpl dict_get.
    repeat match goal with
           | |- context [str_eqb c ?k] =>
               let E := fresh "E" in
               destruct (str_eqb c k) eqn:E;
               [apply str_eqb_eq in E; subst c; vm_compute; auto; discriminate|]
           end.
    discriminate.
Defined.

(** C2 as the specification words it fails: a string with a Condiments
    keyword and a Frozen keyword, and no other, is classified Frozen, though
    Condiments comes first in the specification's enumeration. *)
Lemma categorize_ingredient_spec_order_counterexample :
  hits (py "Condiments") (py "ketchup on frozen pizza") = true
  /\ hits (py "Frozen") (py "ketchup on frozen pizza") = true
  /\ map (fun c => hits c (py "ketchup on frozen pizza")) spec_category_order
     = [false; false; false; false; false; true; true]
  /\ enumerated_before spec_category_order (py "Condiments") (py "Frozen")
     = true
  /\ categorize_ingredient (py "ketchup on frozen pizza") = py "Frozen"
  /\ categorize_ingredient (py "ketchup on frozen pizza") <> py "Condiments".
Proof.
  repeat split; try (vm_compute; reflexivity).
  vm_compute; discriminate.
Qed.

Lemma dict_get_head {V} (k : str) (v : V) (d : dict V) :
  dict_get k ((k, v) :: d) = Some v.
Proof. simpl; now rewrite str_eqb_refl. Qed.

Lemma first_category_cons (c : str) (kws : list str) (items : dict (list str))
      (s : str) :
  first_category ((c, kws) :: items) s
  = if any_keyword_in kws s then Some c else first_category items s.
Proof. reflexivity. Qed.

Lemma any_keyword_in_intro (keywords : list str) (w s : str) :
  In w keywords -> contains w s = true -> any_keyword_in keywords s = true.
Proof.
  intros Hin Hc; apply existsb_exists; now exists w.
Qed.

(** A lower-case word that occurs in a string occurs in its lower-casing. *)
Lemma contains_lower_word (w s : str) :
  lower w = w -> contains w s = true -> contains w (lower s) = true.
Proof.
  intros Hw Hc; rewrite <- Hw; now apply contains_lower.
Qed.

(** C3 (amended): every string that contains ["salmon"] and no Produce
    keyword is classified ["Meat & Seafood"]; every string that contains
    ["onion"] is classified ["Produce"]; and every string that contains no
    keyword of the lexicon, ["xyzzy plugh"] for one, is classified
    ["Other"]. *)
Theorem categorize_ingredient_coverage :
  (forall s : str,
      contains (py "salmon") s = true ->
      hits (py "Produce") s = false ->
      categorize_ingredient s = py "Meat & Seafood")
  /\ (forall s : str,
      contains (py "onion") s = true ->
      categorize_ingredient s = py "Produce")
  /\ (forall s : str,
      (forall c, hits c s = false) ->
      categorize_ingredient s = py "Other")
  /\ categorize_ingredient (py "xyzzy plugh") = py "Other".
Proof.
  split; [|split; [|split]].
  - intros s Hs Hp.
    apply contains_lower_word in Hs; [|reflexivity].
    unfold categorize_ingredient, food_categories.
    unfold hits, food_categories in Hp; rewrite dict_get_head in Hp.
    rewrite first_category_cons, Hp, first_category_cons.
    rewrite (@any_keyword_in_intro _ (py "salmon") _); [reflexivity| |exact Hs].
    simpl; tauto.
  - intros s Hs.
    apply contains_lower_word in Hs; [|reflexivity].
    unfold categorize_ingredient, food_categories.
    rewrite first_category_cons.
    rewrite (@any_keyword_in_intro _ (py "onion") _); [reflexivity| |exact Hs].
    simpl; tauto.
  - intros s Hs; unfold categorize_ingredient.
    now rewrite (@first_category_no_hit (lower s) food_categories Hs
                   food_categories_NoDup).
  - vm_compute; reflexivity.
Qed.

Lemma categorize_ingredient_coverage_witness :
  categorize_ingredient (py "grilled salmon fillet") = py "Meat & Seafood"
  /\ categorize_ingredient (py "1 red onion") = py "Produce"
  /\ categorize_ingredient (py "tofu") = py "Other".
Proof.
  destruct categorize_ingredient_coverage as (Hsalmon & Honion & Hother & _).
  split; [|split].
  - apply Hsalmon; reflexivity.
  - apply Honion; reflexivity.
  - apply Hother; intros c; unfold hits, food_categories; simpl dict_get.
    repeat match goal with
           | |- context [str_eqb c ?k] => destruct (str_eqb c k)
           end; reflexivity.
Defined.

(** C3 as the specification words it fails: ["salmon with lemon"] contains
    ["salmon"], but Produce is looked at first and ["lemon"] is one of its
    keywords. *)
Lemma categorize_ingredient_salmon_counterexample :
  contains (py "salmon") (py "salmon with lemon") = true
  /\ categorize_ingredient (py "salmon with lemon") = py "Produce"
  /\ categorize_ingredient (py "salmon with lemon") <> py "Meat & Seafood".
Proof.
  repeat split; try (vm_compute; reflexivity).
  vm_compute; discriminate.
Qed.

(* ------------------------------------------------------------------ *)
(** ** The instruction extractor *)

(** An alternation of words followed by something that always matches: some
    word must start the input. *)
Lemma alt_join_words {A} (ws : list str) (s : str) (caps : captures)
      (k : str -> captures -> option A) :
  ws <> [] ->
  (forall s' caps', truthy (k s' caps') = true) ->
  truthy (re_m (alt_join ws) s caps k)
  = existsb (fun w => starts_with w s) ws.
Proof.
  intros Hne Hk; induction ws as [|w ws IH]; [congruence|].
  destruct ws as [|w' ws].
  - simpl; destruct (starts_with w s); [apply Hk | reflexivity].
  - change (alt_join (w :: w' :: ws)) with (Alt (Str w) (alt_join (w' :: ws))).
    cbn [re_m]; rewrite truthy_or_else, IH by discriminate.
    cbn [existsb]; destruct (starts_with w s); [|reflexivity].
    now rewrite Hk.
Qed.

Lemma re_match_words (ws : list str) (s : str) :
  ws <> [] ->
  truthy (re_match (words_pattern ws) s)
  = existsb (fun w => starts_with w s) ws.
Proof.
  intros Hne; unfold re_match, words_pattern; cbn [re_m].
  apply alt_join_words; [exact Hne|].
  intros s' caps'; now apply star_m_total.
Qed.

(** [re.search] of [(w1|w2|...).*] succeeds exactly when one of the words
    occurs somewhere in the string. *)
Lemma re_search_words (ws : list str) (s : str) :
  ws <> [] ->
  truthy (re_search (words_pattern ws) s)
  = existsb (fun w => contains w s) ws.
Proof.
  intros Hne; induction s as [|c s IH]; cbn [re_search contains].
  - rewrite truthy_or_else, re_match_words by exact Hne.
    rewrite orb_false_r; apply existsb_same; intros w.
    now rewrite orb_false_r.
  - rewrite truthy_or_else, re_match_words, IH by exact Hne.
    now rewrite existsb_orb.
Qed.

Lemma split_runs_no_cls (cls : ascii -> bool) (b : bool) (s : str) :
  Forall (fun c => cls c = false) s ->
  split_runs cls false s = [s] /\ (s <> [] -> split_runs cls b s = [s]).
Proof.
  induction 1 as [|c s Hc Hs [IH1 IH2]]; simpl.
  - split; [reflexivity | congruence].
  - now rewrite Hc, IH1.
Qed.

Lemma split_runs_pieces (cls : ascii -> bool) (b : bool) (s : str) :
  Forall (Forall (fun c => cls c = false)) (split_runs cls b s).
Proof.
  revert b; induction s as [|c s IH]; intros b; simpl.
  - repeat constructor.
  - destruct (cls c) eqn:Hc.
    + destruct b; [apply IH | constructor; [constructor | apply IH]].
    + specialize (IH false); destruct (split_runs cls false s) as [|p ps].
      * repeat constructor; exact Hc.
      * inversion IH; subst; constructor; [now constructor | assumption].
Qed.

Lemma split_runs_concat (cls : ascii -> bool) (b : bool) (s : str) :
  concat (split_runs cls b s) = filter (fun c => negb (cls c)) s.
Proof.
  revert b; induction s as [|c s IH]; intros b; simpl; [reflexivity|].
  destruct (cls c) eqn:Hc; simpl.
  - destruct b; simpl; apply IH.
  - specialize (IH false); destruct (split_runs cls false s) as [|p ps];
      simpl in *; now rewrite <- IH.
Qed.

(** A sentence is collected when it is longer than 10 characters and one of
    the patterns is found in it. *)
Definition qualifies (sentence : str) : bool :=
  (10 <? length sentence) && matches_instruction_pattern sentence.

Definition is_punctuation : ascii -> bool := is_char ".!?".

Lemma instruction_loop (sentences : list str) (acc : list str) :
  fold_left
    (fun instructions sentence =>
       let sentence := strip sentence in
       if 10 <? length sentence then
         if matches_instruction_pattern sentence
         then instructions ++ [sentence]
         else instructions
       else instructions)
    sentences acc
  = acc ++ filter qualifies (map strip sentences).
Proof.
  revert acc; induction sentences as [|x l IH]; intros acc; simpl.
  - now rewrite app_nil_r.
  - rewrite IH; unfold qualifies.
    destruct (10 <? length (strip x)); simpl; [|reflexivity].
    destruct (matches_instruction_pattern (strip x));
      [now rewrite <- app_assoc | reflexivity].
Qed.

Lemma extract_cooking_instructions_filter (transcript : str) :
  extract_cooking_instructions transcript
  = firstn 10
      (filter qualifies (map strip (re_split_runs is_punctuation transcript))).
Proof.
  unfold extract_cooking_instructions; now rewrite instruction_loop.
Qed.

Lemma matches_instruction_pattern_words (sentence : str) :
  matches_instruction_pattern sentence
  = existsb (fun w => contains w (lower sentence))
            (sequencing_words ++ action_verbs ++ method_verbs).
Proof.
  unfold matches_instruction_pattern, instruction_patterns; cbn [existsb].
  rewrite !re_search_words by discriminate.
  now rewrite !existsb_app, orb_false_r.
Qed.

(** C4 (amended): each of the three patterns is looked for with [re.search]
    in the lower-cased sentence, so the sequencing words first, then, next,
    after, now, finally qualify a sentence when they occur anywhere in it,
    just as the action verbs and the cooking-method verbs do; one pattern
    found is enough, and a trimmed sentence of more than 10 characters
    without sentence punctuation is returned exactly when one is found. *)
Theorem instruction_patterns_match_anywhere (sentence : str) :
  truthy (re_search (words_pattern sequencing_words) (lower sentence))
    = existsb (fun w => contains w (lower sentence)) sequencing_words
  /\ truthy (re_search (words_pattern action_verbs) (lower sentence))
    = existsb (fun w => contains w (lower sentence)) action_verbs
  /\ truthy (re_search (words_pattern method_verbs) (lower sentence))
    = existsb (fun w => contains w (lower sentence)) method_verbs
  /\ matches_instruction_pattern sentence
    = existsb (fun w => contains w (lower sentence))
              (sequencing_words ++ action_verbs ++ method_verbs)
  /\ (Forall (fun c => is_punctuation c = false) sentence ->
      strip sentence = sentence ->
      10 < length sentence ->
      extract_cooking_instructions sentence
      = if matches_instruction_pattern sentence then [sentence] else []).
Proof.
  repeat split; try (apply re_search_words; discriminate).
  - apply matches_instruction_pattern_words.
  - intros Hp Hs Hlen.
    rewrite extract_cooking_instructions_filter; unfold re_split_runs.
    destruct (@split_runs_no_cls is_punctuation false sentence Hp) as [-> _].
    cbn [map filter]; rewrite Hs; unfold qualifies.
    apply Nat.ltb_lt in Hlen; rewrite Hlen; cbn [andb].
    destruct (matches_instruction_pattern sentence); reflexivity.
Qed.

Lemma instruction_patterns_match_anywhere_witness :
  extract_cooking_instructions (py "we are done after that")
  = [py "we are done after that"].
Proof.
  apply (proj2 (proj2 (proj2 (proj2
           (instruction_patterns_match_anywhere
              (py "we are done after that")))))).
  - repeat constructor.
  - reflexivity.
  - simpl; lia.
Defined.

(** The reading of the specification: a sequencing word only counts at the
    start of the lower-cased sentence. *)
Definition spec_qualifies (sentence : str) : bool :=
  existsb (fun w => starts_with w (lower sentence)) sequencing_words
  || existsb (fun w => contains w (lower sentence)) action_verbs
  || existsb (fun w => contains w (lower sentence)) method_verbs.

(** C4 as the specification words it fails: in ["we are done after that"]
    no sequencing word is at the start and no verb of the other two lists
    occurs, yet the sequencing pattern is found and the sentence is
    returned. *)
Lemma sequencing_word_at_start_counterexample :
  existsb (fun w => starts_with w (lower (py "we are done after that")))
          sequencing_words = false
  /\ spec_qualifies (py "we are done after that") = false
  /\ truthy (re_search (words_pattern sequencing_words)
                       (lower (py "we are done after that"))) = true
  /\ extract_cooking_instructions (py "So. we are done after that!")
     = [py "we are done after that"].
Proof. repeat split; vm_compute; reflexivity. Qed.

(* ------------------------------------------------------------------ *)
(** ** Trimming *)

(** No whitespace at either end. *)
Definition trimmed (s : str) : Prop :=
  (forall c rest, s = c :: rest -> isspace c = false)
  /\ (forall init c, s = init ++ [c] -> isspace c = false).

Lemma lstrip_head (s : str) (c : ascii) (rest : str) :
  lstrip s = c :: rest -> isspace c = false.
Proof.
  induction s as [|a s IH]; simpl; [discriminate|].
  destruct (isspace a) eqn:E; [exact IH|].
  now intros [= <- _].
Qed.

Lemma lstrip_suffix (s : str) : exists pre, s = pre ++ lstrip s.
Proof.
  induction s as [|a s [pre IH]]; simpl; [now exists []|].
  destruct (isspace a); [|now exists []].
  exists (a :: pre); simpl; now f_equal.
Qed.

Lemma lstrip_fixed (s : str) :
  (forall c rest, s = c :: rest -> isspace c = false) -> lstrip s = s.
Proof.
  destruct s as [|a s]; simpl; [reflexivity|].
  intros H; now rewrite (H a s eq_refl).
Qed.

Lemma rstrip_prefix (s : str) : exists post, s = rstrip s ++ post.
Proof.
  unfold rstrip; destruct (lstrip_suffix (rev s)) as [pre H].
  exists (rev pre).
  rewrite <- rev_app_distr, <- H; now rewrite rev_involutive.
Qed.

Lemma rstrip_last (s init : str) (c : ascii) :
  rstrip s = init ++ [c] -> isspace c = false.
Proof.
  unfold rstrip; intros H.
  apply (f_equal (@rev ascii)) in H.
  rewrite rev_involutive, rev_app_distr in H; simpl in H.
  now apply lstrip_head in H.
Qed.

Lemma strip_trimmed (s : str) : trimmed (strip s).
Proof.
  unfold strip; split.
  - intros c rest H.
    destruct (rstrip_prefix (lstrip s)) as [post Hp].
    rewrite H in Hp; simpl in Hp; now apply lstrip_head in Hp.
  - intros init c H; now apply rstrip_last in H.
Qed.

Lemma firstn_In {A} (n : nat) (l : list A) (x : A) :
  In x (firstn n l) -> In x l.
Proof.
  revert n; induction l as [|y l IH]; intros [|n]; simpl; try tauto.
  intros [H | H]; [now left | right; now apply (IH n)].
Qed.

Lemma firstn_NoDup {A} (n : nat) (l : list A) : NoDup l -> NoDup (firstn n l).
Proof.
  intros H; revert n; induction H as [|y l Hnin Hnd IH]; intros [|n]; simpl;
    try constructor; [|apply IH].
  intros Hin; apply Hnin; now apply firstn_In in Hin.
Qed.

(** C5: the transcript is split on the runs of ['.'], ['!'] and ['?'] (no
    piece keeps such a character, and the pieces together are the
    transcript without them); each piece is trimmed and kept when it is
    longer than 10 characters and matches a pattern; the result is the
    first 10 of the kept sentences in transcript order, so exactly 10
    as soon as more than 10 sentences qualify. *)
Theorem extract_cooking_instructions_first_ten (transcript : str) :
  let pieces := re_split_runs is_punctuation transcript in
  let qualifying := filter qualifies (map strip pieces) in
  Forall (Forall (fun c => is_punctuation c = false)) pieces
  /\ concat pieces = filter (fun c => negb (is_punctuation c)) transcript
  /\ Forall (fun s => trimmed s /\ 10 < length s
                      /\ matches_instruction_pattern s = true) qualifying
  /\ (forall piece, In piece pieces -> length (strip piece) <= 10 ->
                    ~ In (strip piece) qualifying)
  /\ extract_cooking_instructions transcript = firstn 10 qualifying
  /\ length (extract_cooking_instructions transcript) <= 10
  /\ (10 < length qualifying ->
      length (extract_cooking_instructions transcript) = 10).
Proof.
  intros pieces qualifying.
  assert (Hq : Forall (fun s => trimmed s /\ 10 < length s
                         /\ matches_instruction_pattern s = true) qualifying).
  { apply Forall_forall; intros s Hs.
    apply filter_In in Hs as [Hin Hs].
    apply in_map_iff in Hin as [piece [<- _]].
    unfold qualifies in Hs; apply andb_true_iff in Hs as [Hlen Hm].
    apply Nat.ltb_lt in Hlen; auto using strip_trimmed. }
  repeat split.
  - apply split_runs_pieces.
  - apply split_runs_concat.
  - exact Hq.
  - intros piece _ Hlen Hin.
    rewrite Forall_forall in Hq; apply Hq in Hin as [_ [Hlt _]]; lia.
  - apply extract_cooking_instructions_filter.
  - rewrite extract_cooking_instructions_filter, length_firstn; lia.
  - intros Hlen.
    rewrite extract_cooking_instructions_filter, length_firstn.
    fold pieces; fold qualifying; lia.
Qed.

(** Twelve sentences, of which the eleven that contain a verb qualify. *)
Definition twelve_sentences : str :=
  py ("Add the butter one. Add the butter two! Add the butter three? "
      ++ "Add the butter four. Look at this nice pan. Add the butter five. "
      ++ "Add the butter six. Add the butter seven... Add the butter eight. "
      ++ "Add the butter nine. Add the butter ten. Add the butter eleven.").

Lemma extract_cooking_instructions_first_ten_witness :
  length (extract_cooking_instructions twelve_sentences) = 10
  /\ extract_cooking_instructions twelve_sentences
     = map py ["Add the butter one"; "Add the butter two";
               "Add the butter three"; "Add the butter four";
               "Add the butter five"; "Add the butter six";
               "Add the butter seven"; "Add the butter eight";
               "Add the butter nine"; "Add the butter ten"]%string.
Proof.
  split.
  - apply (extract_cooking_instructions_first_ten twelve_sentences).
    vm_compute; lia.
  - vm_compute; reflexivity.
Defined.

(* ------------------------------------------------------------------ *)
(** ** The ingredient normalizer *)

(** Two whitespace characters in a row somewhere in the string. *)
Fixpoint adjacent_ws (s : str) : bool :=
  match s with
  | c1 :: s' =>
      match s' with
      | c2 :: _ => (isspace c1 && isspace c2) || adjacent_ws s'
      | [] => false
      end
  | [] => false
  end.

Lemma adjacent_ws_false (s pre post : str) (c1 c2 : ascii) :
  adjacent_ws s = false -> s = pre ++ c1 :: c2 :: post ->
  isspace c1 = true -> isspace c2 = false.
Proof.
  revert s; induction pre as [|a pre IH]; intros s H -> H1; simpl in H.
  - apply orb_false_iff in H as [H _]; now rewrite H1 in H.
  - destruct (pre ++ c1 :: c2 :: post) as [|b t] eqn:E.
    + now destruct pre.
    + apply orb_false_iff in H as [_ H].
      now apply (IH (b :: t)).
Qed.

Lemma adjacent_ws_cons (c1 c2 : ascii) (t : str) :
  adjacent_ws (c1 :: c2 :: t)
  = (isspace c1 && isspace c2) || adjacent_ws (c2 :: t).
Proof. reflexivity. Qed.

Definition space : str := py " ".

Lemma sub_runs_spaced (s : str) (b : bool) :
  adjacent_ws (sub_runs isspace space b s) = false
  /\ (b = true ->
      forall c rest, sub_runs isspace space b s = c :: rest ->
                     isspace c = false).
Proof.
  revert b; induction s as [|a s IH]; intros b; simpl.
  - split; [reflexivity | discriminate].
  - destruct (isspace a) eqn:Ea.
    + destruct b.
      * apply IH.
      * destruct (IH true) as [IH1 IH2]; split; [|discriminate].
        change (space ++ sub_runs isspace space true s)
          with (" "%char :: sub_runs isspace space true s).
        destruct (sub_runs isspace space true s) as [|c2 t] eqn:E;
          [reflexivity|].
        rewrite adjacent_ws_cons, (IH2 eq_refl c2 t eq_refl), IH1.
        reflexivity.
    + destruct (IH false) as [IH1 _]; split.
      * destruct (sub_runs isspace space false s) as [|c2 t] eqn:E;
          [reflexivity|].
        now rewrite adjacent_ws_cons, Ea, IH1.
      * now intros _ c rest [= <- _].
Qed.

Lemma sub_runs_app (cls : ascii -> bool) (repl init rest : str) (c : ascii)
      (b : bool) :
  cls c = false ->
  sub_runs cls repl b (init ++ c :: rest)
  = sub_runs cls repl b init ++ c :: sub_runs cls repl false rest.
Proof.
  intros Hc; revert b; induction init as [|a init IH]; intros b; simpl.
  - now rewrite Hc.
  - destruct (cls a); [destruct b|]; rewrite IH; try reflexivity.
    now rewrite app_assoc.
Qed.

Lemma sub_runs_trimmed (s : str) :
  trimmed s -> trimmed (re_sub_runs isspace space s).
Proof.
  intros [Hh Hl]; unfold re_sub_runs; split.
  - destruct s as [|a s]; simpl; [discriminate|].
    rewrite (Hh a s eq_refl); intros c rest [= <- _]; exact (Hh a s eq_refl).
  - destruct s as [|a s] using rev_ind.
    + intros init c H; now destruct init.
    + clear IHs; intros init c H.
      pose proof (Hl s a eq_refl) as Ha.
      rewrite (@sub_runs_app isspace space s [] a false Ha) in H.
      simpl in H; now apply app_inj_tail in H as [_ <-].
Qed.

Lemma trimmed_lower (s : str) : trimmed s -> trimmed (lower s).
Proof.
  intros [Hh Hl]; unfold lower; split.
  - destruct s as [|a s]; simpl; [discriminate|].
    intros c rest [= <- _]; rewrite isspace_lower_char; now apply (Hh a s).
  - destruct s as [|a s] using rev_ind.
    + intros init c H; now destruct init.
    + clear IHs; intros init c H.
      rewrite map_app in H; simpl in H.
      apply app_inj_tail in H as [_ <-].
      rewrite isspace_lower_char; now apply (Hl s a).
Qed.

Lemma adjacent_ws_lower (s : str) : adjacent_ws (lower s) = adjacent_ws s.
Proof.
  induction s as [|c1 s IH]; [reflexivity|].
  destruct s as [|c2 t]; [reflexivity|].
  change (lower (c1 :: c2 :: t))
    with (lower_char c1 :: lower_char c2 :: lower t).
  rewrite !adjacent_ws_cons, !isspace_lower_char.
  f_equal; exact IH.
Qed.

(** The normalizer's result: trimmed, single-spaced, and left unchanged by
    [lower]. *)
Lemma clean_ingredient_normal (ingredient : str) :
  let cleaned := clean_ingredient ingredient in
  trimmed cleaned
  /\ adjacent_ws cleaned = false
  /\ lower cleaned = cleaned.
Proof.
  unfold clean_ingredient; cbv zeta; repeat split.
  - apply trimmed_lower, sub_runs_trimmed, strip_trimmed.
  - apply trimmed_lower, sub_runs_trimmed, strip_trimmed.
  - rewrite adjacent_ws_lower; apply sub_runs_spaced.
  - apply lower_idem.
Qed.

(* ------------------------------------------------------------------ *)
(** ** The order on strings and [sorted] *)

Lemma str_ltb_irrefl (a : str) : str_ltb a a = false.
Proof.
  induction a as [|x a IH]; simpl; [reflexivity|].
  now rewrite N.ltb_irrefl, N.eqb_refl.
Qed.

Lemma str_lt_trans (a b c : str) : str_lt a b -> str_lt b c -> str_lt a c.
Proof.
  unfold str_lt; revert b c; induction a as [|x a IH]; intros [|y b] [|z c];
    simpl; try discriminate; try reflexivity.
  destruct (N.ltb_spec (code x) (code y)), (N.ltb_spec (code y) (code z)),
    (N.ltb_spec (code x) (code z)),
    (N.eqb_spec (code x) (code y)), (N.eqb_spec (code y) (code z)),
    (N.eqb_spec (code x) (code z));
    try discriminate; try reflexivity; try lia.
  apply IH.
Qed.

Lemma str_ltb_connex (a b : str) :
  str_ltb a b = false -> str_ltb b a = false -> a = b.
Proof.
  revert b; induction a as [|x a IH]; intros [|y b]; simpl;
    try discriminate; try reflexivity.
  destruct (N.ltb_spec (code x) (code y)), (N.ltb_spec (code y) (code x)),
    (N.eqb_spec (code x) (code y)), (N.eqb_spec (code y) (code x));
    try discriminate; try lia.
  intros H1 H2; f_equal; [now apply code_inj | now apply IH].
Qed.

Lemma insert_sorted_In (x y : str) (l : list str) :
  In y (insert_sorted x l) <-> y = x \/ In y l.
Proof.
  induction l as [|z l IH]; simpl; [intuition|].
  destruct (str_ltb z x); simpl; [rewrite IH|]; intuition.
Qed.

Lemma insert_sorted_strict (x : str) (l : list str) :
  ~ In x l -> StronglySorted str_lt l ->
  StronglySorted str_lt (insert_sorted x l).
Proof.
  intros Hnin Hs; induction Hs as [|z l Hs IH Hz]; simpl.
  - repeat constructor.
  - destruct (str_ltb z x) eqn:E.
    + constructor; [apply IH; intros H; apply Hnin; now right|].
      apply Forall_forall; intros y Hy.
      apply insert_sorted_In in Hy as [-> | Hy]; [exact E|].
      rewrite Forall_forall in Hz; now apply Hz.
    + assert (Hxz : str_lt x z).
      { unfold str_lt; destruct (str_ltb x z) eqn:E'; [reflexivity|].
        exfalso; apply Hnin; left; now apply str_ltb_connex. }
      constructor; [now constructor|].
      constructor; [exact Hxz|].
      apply Forall_forall; intros y Hy.
      rewrite Forall_forall in Hz.
      apply (str_lt_trans Hxz); now apply Hz.
Qed.

Lemma sorted_In (l : list str) (x : str) : In x (sorted l) <-> In x l.
Proof.
  induction l as [|y l IH]; simpl; [reflexivity|].
  rewrite insert_sorted_In, IH; intuition.
Qed.

Lemma sorted_strict (l : list str) :
  NoDup l -> StronglySorted str_lt (sorted l).
Proof.
  induction 1 as [|x l Hnin Hnd IH]; simpl; [constructor|].
  apply insert_sorted_strict; [|exact IH].
  now rewrite sorted_In.
Qed.

Lemma strict_NoDup (l : list str) : StronglySorted str_lt l -> NoDup l.
Proof.
  induction 1 as [|x l Hs IH Hx]; constructor; [|exact IH].
  intros Hin; rewrite Forall_forall in Hx; specialize (Hx x Hin).
  unfold str_lt in Hx; now rewrite str_ltb_irrefl in Hx.
Qed.

(** A strictly sorted list is determined by its elements. *)
Lemma strict_unique (l1 l2 : list str) :
  StronglySorted str_lt l1 -> StronglySorted str_lt l2 ->
  (forall x, In x l1 <-> In x l2) -> l1 = l2.
Proof.
  intros H1; revert l2; induction H1 as [|x l1 Hs1 IH Hx]; intros l2 H2 Heq.
  - destruct l2 as [|y l2]; [reflexivity|].
    exfalso; apply (Heq y); now left.
  - destruct H2 as [|y l2 Hs2 Hy].
    + exfalso; apply (Heq x); now left.
    + rewrite Forall_forall in Hx, Hy.
      assert (x = y) as <-.
      { destruct (proj1 (Heq x) (or_introl eq_refl)) as [E | Hin];
          [now symmetry|].
        destruct (proj2 (Heq y) (or_introl eq_refl)) as [E | Hin'];
          [exact E|].
        pose proof (str_lt_trans (Hx _ Hin') (Hy _ Hin)) as Hc.
        unfold str_lt in Hc; now rewrite str_ltb_irrefl in Hc. }
      f_equal; apply IH; [exact Hs2|].
      intros z; split; intros Hz.
      * destruct (proj1 (Heq z) (or_intror Hz)) as [<- | Hin]; [|exact Hin].
        specialize (Hx _ Hz); unfold str_lt in Hx.
        now rewrite str_ltb_irrefl in Hx.
      * destruct (proj2 (Heq z) (or_intror Hz)) as [<- | Hin]; [|exact Hin].
        specialize (Hy _ Hz); unfold str_lt in Hy.
        now rewrite str_ltb_irrefl in Hy.
Qed.

(** [a <= b] on strings. *)
Definition str_le (a b : str) : Prop := str_ltb b a = false.

(** Sorted and duplicate-free is strictly sorted. *)
Lemma sorted_NoDup_strict (l : list str) :
  Sorted str_le l -> NoDup l -> StronglySorted str_lt l.
Proof.
  induction 1 as [|x l Hs IH Hhd]; intros Hnd; [constructor|].
  inversion Hnd as [|? ? Hnin Hnd']; subst.
  specialize (IH Hnd'); constructor; [exact IH|].
  destruct Hhd as [|y l' Hxy]; [constructor|].
  assert (Hlt : str_lt x y).
  { unfold str_lt; destruct (str_ltb x y) eqn:E; [reflexivity|].
    exfalso; apply Hnin; left; symmetry; now apply str_ltb_connex. }
  constructor; [exact Hlt|].
  inversion IH as [|? ? _ Hy]; subst.
  rewrite Forall_forall in Hy; apply Forall_forall; intros z Hz.
  exact (str_lt_trans Hlt (Hy z Hz)).
Qed.

Lemma first_seen_In (l : list str) (x : str) : In x (first_seen l) <-> In x l.
Proof.
  induction l as [|y l IH]; simpl; [reflexivity|].
  rewrite filter_In, IH, negb_true_iff, str_eqb_neq.
  destruct (list_eq_dec ascii_dec y x); intuition.
Qed.

Lemma first_seen_NoDup (l : list str) : NoDup (first_seen l).
Proof.
  induction l as [|y l IH]; simpl; constructor.
  - rewrite filter_In, negb_true_iff, str_eqb_neq; tauto.
  - now apply NoDup_filter.
Qed.

(* ------------------------------------------------------------------ *)
(** ** Dictionaries *)

Lemma dict_get_set {V} (d : dict V) (k k' : str) (v : V) :
  dict_get k' (dict_set d k v)
  = if str_eqb k' k then Some v else dict_get k' d.
Proof.
  induction d as [|[k0 v0] d IH]; simpl.
  - reflexivity.
  - destruct (str_eqb k k0) eqn:E; simpl.
    + apply str_eqb_eq in E as ->; now destruct (str_eqb k' k0).
    + rewrite IH; destruct (str_eqb k' k0) eqn:E0; [|reflexivity].
      apply str_eqb_eq in E0 as ->.
      destruct (str_eqb k0 k) eqn:E1; [|reflexivity].
      apply str_eqb_eq in E1 as ->; now rewrite str_eqb_refl in E.
Qed.

Lemma dd_get_set {V} (d : dict (list V)) (k k' : str) (v : list V) :
  dd_get (dict_set d k v) k' = if str_eqb k' k then v else dd_get d k'.
Proof.
  unfold dd_get; rewrite dict_get_set; now destruct (str_eqb k' k).
Qed.

Lemma dict_get_None {V} (d : dict V) (k : str) :
  ~ In k (keys d) -> dict_get k d = None.
Proof.
  intros H; destruct (dict_get k d) eqn:E; [|reflexivity].
  now apply dict_get_In_keys in E.
Qed.

Lemma keys_dict_set {V} (d : dict V) (k : str) (v : V) :
  NoDup (keys d) -> NoDup (keys (dict_set d k v)).
Proof.
  induction d as [|[k0 v0] d IH]; simpl; intros H.
  - repeat constructor; auto.
  - inversion H as [|? ? Hnin Hnd]; subst.
    destruct (str_eqb k k0) eqn:E; simpl; [exact H|].
    constructor; [|now apply IH].
    intros Hin; apply Hnin; clear IH H Hnd Hnin.
    induction d as [|[k1 v1] d IHd]; simpl in *.
    + destruct Hin as [-> | []]; now rewrite str_eqb_refl in E.
    + destruct (str_eqb k k1); simpl in Hin; [exact Hin|].
      destruct Hin as [-> | Hin]; [now left | right; now apply IHd].
Qed.

(* ------------------------------------------------------------------ *)
(** ** Shopping lists *)

(** All the items that a shopping list holds under [category]. *)
Definition items_under (category : str) (shopping_list : dict (list str))
  : list str :=
  flat_map (fun '(k, items) => if str_eqb category k then items else [])
           shopping_list.

(** [category] is a key of the shopping list. *)
Definition mentions (category : str) (shopping_list : dict (list str)) : bool :=
  existsb (fun '(k, _) => str_eqb category k) shopping_list.

Lemma mentions_dict_get (c : str) (d : dict (list str)) :
  mentions c d = truthy (dict_get c d).
Proof.
  induction d as [|[k v] d IH]; simpl; [reflexivity|].
  destruct (str_eqb c k); [reflexivity | exact IH].
Qed.

Lemma items_under_not_mentioned (c : str) (d : dict (list str)) :
  mentions c d = false -> items_under c d = [].
Proof.
  induction d as [|[k v] d IH]; simpl; [reflexivity|].
  destruct (str_eqb c k); [discriminate | exact IH].
Qed.

Lemma items_under_dd_get (c : str) (d : dict (list str)) :
  NoDup (keys d) -> items_under c d = dd_get d c.
Proof.
  unfold dd_get; induction d as [|[k v] d IH]; simpl; intros H;
    [reflexivity|].
  inversion H as [|? ? Hnin Hnd]; subst.
  destruct (str_eqb c k) eqn:E; [|now apply IH].
  apply str_eqb_eq in E as ->.
  rewrite items_under_not_mentioned; [apply app_nil_r|].
  now rewrite mentions_dict_get, dict_get_None.
Qed.

Lemma mentions_cons (c k : str) (v : list str) (d : dict (list str)) :
  mentions c ((k, v) :: d) = str_eqb c k || mentions c d.
Proof. reflexivity. Qed.

Lemma items_under_cons (c k : str) (v : list str) (d : dict (list str)) :
  items_under c ((k, v) :: d)
  = (if str_eqb c k then v else []) ++ items_under c d.
Proof. reflexivity. Qed.

Lemma flat_map_not_mentioned (c : str) (lists : list (dict (list str))) :
  existsb (mentions c) lists = false -> flat_map (items_under c) lists = [].
Proof.
  induction lists as [|sl lists IH]; simpl; [reflexivity|].
  intros H; apply orb_false_iff in H as [H1 H2].
  now rewrite (items_under_not_mentioned _ _ H1), IH.
Qed.

Lemma mentions_In (c : str) (d : dict (list str)) :
  mentions c d = true <-> exists v, In (c, v) d.
Proof.
  unfold mentions; rewrite existsb_exists; split.
  - intros [[k v] [Hin E]]; apply str_eqb_eq in E as ->; now exists v.
  - intros [v Hin]; exists (c, v); split; [exact Hin | apply str_eqb_refl].
Qed.

Lemma items_under_In (c x : str) (d : dict (list str)) :
  In x (items_under c d) <-> exists v, In (c, v) d /\ In x v.
Proof.
  unfold items_under; rewrite in_flat_map; split.
  - intros [[k v] [Hin Hx]].
    destruct (str_eqb c k) eqn:E; [|destruct Hx].
    apply str_eqb_eq in E as ->; now exists v.
  - intros [v [Hin Hx]]; exists (c, v); split; [exact Hin|].
    now rewrite str_eqb_refl.
Qed.

Section SetSemantics.
Variable list_of_set : list str -> list str.
Hypothesis list_of_set_NoDup : forall l, NoDup (list_of_set l).
Hypothesis list_of_set_In : forall l x, In x (list_of_set l) <-> In x l.

(** [sorted(list(set(items)))] *)
Definition canon (items : list str) : list str := sorted (list_of_set items).

Lemma canon_In (l : list str) (x : str) : In x (canon l) <-> In x l.
Proof. unfold canon; now rewrite sorted_In, list_of_set_In. Qed.

Lemma canon_strict (l : list str) : StronglySorted str_lt (canon l).
Proof. apply sorted_strict, list_of_set_NoDup. Qed.

Lemma canon_ext (l1 l2 : list str) :
  (forall x, In x l1 <-> In x l2) -> canon l1 = canon l2.
Proof.
  intros H; apply strict_unique; try apply canon_strict.
  intros x; now rewrite !canon_In.
Qed.

Lemma canon_fixed (l : list str) : StronglySorted str_lt l -> canon l = l.
Proof.
  intros H; apply strict_unique; [apply canon_strict | exact H |].
  apply canon_In.
Qed.

Lemma canon_nil (l : list str) : canon l = [] <-> l = [].
Proof.
  split; intros H.
  - destruct l as [|x l]; [reflexivity|].
    assert (Hin : In x (canon (x :: l))) by (apply canon_In; now left).
    now rewrite H in Hin.
  - subst l; destruct (canon []) as [|x l] eqn:E; [reflexivity|].
    assert (Hin : In x (canon [])) by (rewrite E; now left).
    apply (proj1 (canon_In [] x)) in Hin; destruct Hin.
Qed.

(** The loop that writes [sorted(list(set(items)))] under every key. *)
Definition canon_all (d acc : dict (list str)) : dict (list str) :=
  fold_left (fun result '(category, items) =>
               dict_set result category (canon items)) d acc.

Lemma canon_all_get (d acc : dict (list str)) (c : str) :
  NoDup (keys d) ->
  dict_get c (canon_all d acc)
  = match dict_get c d with
    | Some items => Some (canon items)
    | None => dict_get c acc
    end.
Proof.
  unfold canon_all; revert acc; induction d as [|[k v] d IH]; intros acc H;
    simpl; [reflexivity|].
  inversion H as [|? ? Hnin Hnd]; subst.
  rewrite (IH _ Hnd), dict_get_set.
  destruct (str_eqb c k) eqn:E; [|reflexivity].
  apply str_eqb_eq in E as ->; now rewrite dict_get_None.
Qed.

Lemma canon_all_keys (d acc : dict (list str)) :
  NoDup (keys acc) -> NoDup (keys (canon_all d acc)).
Proof.
  unfold canon_all; revert acc; induction d as [|[k v] d IH]; intros acc H;
    simpl; [exact H|].
  now apply IH, keys_dict_set.
Qed.

(** *** [merge_shopping_lists] *)

Definition extend_with (shopping_list merged : dict (list str))
  : dict (list str) :=
  fold_left (fun merged '(category, items) =>
               dict_set merged category (dd_get merged category ++ items))
            shopping_list merged.

Lemma extend_with_get (sl merged : dict (list str)) (c : str) :
  dict_get c (extend_with sl merged)
  = if mentions c sl then Some (dd_get merged c ++ items_under c sl)
    else dict_get c merged.
Proof.
  unfold extend_with; revert merged; induction sl as [|[k v] sl IH];
    intros merged; [reflexivity|].
  cbn [fold_left]; rewrite IH, mentions_cons, items_under_cons.
  unfold dd_get at 1; rewrite !dict_get_set.
  destruct (str_eqb c k) eqn:E; cbn [orb]; [|reflexivity].
  apply str_eqb_eq in E as ->.
  destruct (mentions k sl) eqn:M; [now rewrite <- app_assoc|].
  now rewrite (items_under_not_mentioned _ _ M), app_nil_r.
Qed.

Lemma extend_with_keys (sl merged : dict (list str)) :
  NoDup (keys merged) -> NoDup (keys (extend_with sl merged)).
Proof.
  unfold extend_with; revert merged; induction sl as [|[k v] sl IH];
    intros merged H; simpl; [exact H|].
  now apply IH, keys_dict_set.
Qed.

Definition merge_from (lists : list (dict (list str)))
           (merged : dict (list str)) : dict (list str) :=
  fold_left (fun merged shopping_list => extend_with shopping_list merged)
            lists merged.

Lemma merge_from_get (lists : list (dict (list str)))
      (merged : dict (list str)) (c : str) :
  dict_get c (merge_from lists merged)
  = if existsb (mentions c) lists
    then Some (dd_get merged c ++ flat_map (items_under c) lists)
    else dict_get c merged.
Proof.
  unfold merge_from; revert merged; induction lists as [|sl lists IH];
    intros merged; [reflexivity|].
  cbn [fold_left existsb flat_map]; rewrite IH.
  unfold dd_get at 1; rewrite !extend_with_get.
  destruct (mentions c sl) eqn:E; cbn [orb].
  - destruct (existsb (mentions c) lists) eqn:M; [now rewrite <- app_assoc|].
    rewrite (flat_map_not_mentioned _ _ M); now rewrite !app_nil_r.
  - now rewrite (items_under_not_mentioned _ _ E).
Qed.

Lemma merge_from_keys (lists : list (dict (list str)))
      (merged : dict (list str)) :
  NoDup (keys merged) -> NoDup (keys (merge_from lists merged)).
Proof.
  unfold merge_from; revert merged; induction lists as [|sl lists IH];
    intros merged H; simpl; [exact H|].
  now apply IH, extend_with_keys.
Qed.

Lemma merge_shopping_lists_unfold (lists : list (dict (list str))) :
  merge_shopping_lists list_of_set lists
  = canon_all (merge_from lists []) [].
Proof. reflexivity. Qed.

(** What the merged list holds under a category. *)
Lemma merge_shopping_lists_get (lists : list (dict (list str))) (c : str) :
  dict_get c (merge_shopping_lists list_of_set lists)
  = if existsb (mentions c) lists
    then Some (canon (flat_map (items_under c) lists))
    else None.
Proof.
  rewrite merge_shopping_lists_unfold, canon_all_get, merge_from_get.
  - now destruct (existsb (mentions c) lists).
  - apply merge_from_keys; constructor.
Qed.

Lemma merge_shopping_lists_keys (lists : list (dict (list str))) :
  NoDup (keys (merge_shopping_lists list_of_set lists)).
Proof.
  rewrite merge_shopping_lists_unfold; apply canon_all_keys; constructor.
Qed.

Lemma merge_shopping_lists_mentions (lists : list (dict (list str)))
      (c : str) :
  mentions c (merge_shopping_lists list_of_set lists)
  = existsb (mentions c) lists.
Proof.
  rewrite mentions_dict_get, merge_shopping_lists_get.
  now destruct (existsb (mentions c) lists).
Qed.

Lemma merge_shopping_lists_items (lists : list (dict (list str)))
      (c x : str) :
  In x (items_under c (merge_shopping_lists list_of_set lists))
  <-> In x (flat_map (items_under c) lists).
Proof.
  rewrite items_under_dd_get by apply merge_shopping_lists_keys.
  unfold dd_get; rewrite merge_shopping_lists_get.
  destruct (existsb (mentions c) lists) eqn:E; [apply canon_In|].
  split; [intros []|].
  rewrite in_flat_map; intros [sl [Hin Hx]].
  rewrite items_under_not_mentioned in Hx; [exact Hx|].
  destruct (mentions c sl) eqn:E'; [|reflexivity].
  assert (existsb (mentions c) lists = true)
    by (apply existsb_exists; now exists sl).
  congruence.
Qed.

(** C6: merging is a per-category set union followed by the canonical
    sort: a category is in the result exactly when an input has it, and it
    is then mapped to the strictly ascending sequence of the items that
    the inputs hold under it.  So merging is commutative and associative in
    content: the two orders of merging two lists, and the two bracketings
    of merging three, give dictionaries with the same categories, each
    mapped to the same item sequence. *)
Theorem merge_shopping_lists_comm_assoc :
  (forall A B : dict (list str),
      dict_eq (merge_shopping_lists list_of_set [A; B])
              (merge_shopping_lists list_of_set [B; A]))
  /\ (forall A B C : dict (list str),
      dict_eq
        (merge_shopping_lists list_of_set
           [merge_shopping_lists list_of_set [A; B]; C])
        (merge_shopping_lists list_of_set
           [A; merge_shopping_lists list_of_set [B; C]]))
  /\ (forall (lists : list (dict (list str))) (c : str),
      match dict_get c (merge_shopping_lists list_of_set lists) with
      | Some items =>
          StronglySorted str_lt items
          /\ (exists sl v, In sl lists /\ In (c, v) sl)
          /\ (forall x, In x items
                        <-> exists sl v, In sl lists /\ In (c, v) sl
                                         /\ In x v)
      | None => forall sl v, In sl lists -> ~ In (c, v) sl
      end).
Proof.
  split; [|split].
  - intros A B c; rewrite !merge_shopping_lists_get; cbn [existsb flat_map].
    rewrite !orb_false_r, !app_nil_r, (orb_comm (mentions c B)).
    destruct (mentions c A || mentions c B); [f_equal|reflexivity].
    apply canon_ext; intros x; rewrite !in_app_iff; tauto.
  - intros A B C c; rewrite !merge_shopping_lists_get; cbn [existsb flat_map].
    rewrite !merge_shopping_lists_mentions; cbn [existsb].
    rewrite !orb_false_r, !app_nil_r, orb_assoc.
    destruct (mentions c A || mentions c B || mentions c C);
      [f_equal|reflexivity].
    apply canon_ext; intros x.
    rewrite !in_app_iff, !merge_shopping_lists_items; cbn [flat_map].
    rewrite !app_nil_r, !in_app_iff; tauto.
  - intros lists c; rewrite merge_shopping_lists_get.
    destruct (existsb (mentions c) lists) eqn:M.
    + split; [apply canon_strict|]; split.
      * apply existsb_exists in M as [sl [Hin M]].
        apply mentions_In in M as [v Hv]; now exists sl, v.
      * intros x; rewrite canon_In, in_flat_map; split.
        -- intros [sl [Hin Hx]]; apply items_under_In in Hx as [v [Hv Hx]].
           now exists sl, v.
        -- intros [sl [v [Hin [Hv Hx]]]]; exists sl; split; [exact Hin|].
           apply items_under_In; now exists v.
    + intros sl v Hin Hv.
      assert (E : existsb (mentions c) lists = true); [|congruence].
      apply existsb_exists; exists sl; split; [exact Hin|].
      apply mentions_In; now exists v.
Qed.

(** *** [process_ingredients_list] *)

(** The test of the loop: [cleaned and len(cleaned) > 2]. *)
Definition kept (cleaned : str) : bool :=
  negb (length cleaned =? 0) && (2 <? length cleaned).

(** The cleaned ingredients that pass the test and fall in [category], in
    input order. *)
Definition selected (category : str) (ingredients : list str) : list str :=
  filter (fun cleaned => str_eqb category (categorize_ingredient cleaned))
         (filter kept (map clean_ingredient ingredients)).

Definition categorize_from (ingredients : list str)
           (categorized : dict (list str)) : dict (list str) :=
  fold_left
    (fun categorized ingredient =>
       let cleaned := clean_ingredient ingredient in
       if negb (length cleaned =? 0) && (2 <? length cleaned) then
         let category := categorize_ingredient cleaned in
         dict_set categorized category
                  (dd_get categorized category ++ [cleaned])
       else categorized)
    ingredients categorized.

Lemma categorize_from_get (ingredients : list str)
      (categorized : dict (list str)) (c : str) :
  dict_get c (categorize_from ingredients categorized)
  = match selected c ingredients with
    | [] => dict_get c categorized
    | items => Some (dd_get categorized c ++ items)
    end.
Proof.
  unfold categorize_from, selected; revert categorized.
  induction ingredients as [|x l IH]; intros categorized; [reflexivity|].
  cbn [fold_left map filter]; cbv zeta; rewrite IH; clear IH.
  unfold kept at 2.
  destruct (negb (length (clean_ingredient x) =? 0)
            && (2 <? length (clean_ingredient x))); [|reflexivity].
  cbn [filter]; rewrite dd_get_set, dict_get_set.
  destruct (str_eqb c (categorize_ingredient (clean_ingredient x))) eqn:E;
    [|reflexivity].
  apply str_eqb_eq in E; rewrite <- E.
  destruct (filter _ (filter kept (map clean_ingredient l)));
    [reflexivity | now rewrite <- app_assoc].
Qed.

Lemma order_loop_get (categorized : dict (list str)) (order : list str)
      (result : dict (list str)) (c : str) :
  dict_get c
    (fold_left
       (fun result category =>
          match dict_get category categorized with
          | Some items => dict_set result category (canon items)
          | None => result
          end)
       order result)
  = if existsb (str_eqb c) order
    then match dict_get c categorized with
         | Some items => Some (canon items)
         | None => dict_get c result
         end
    else dict_get c result.
Proof.
  revert result; induction order as [|k order IH]; intros result;
    [reflexivity|].
  cbn [fold_left existsb]; rewrite IH.
  destruct (str_eqb c k) eqn:E; cbn [orb].
  - apply str_eqb_eq in E as ->.
    destruct (dict_get k categorized) as [items|] eqn:G.
    + rewrite dict_get_set, str_eqb_refl.
      now destruct (existsb (str_eqb k) order).
    + now destruct (existsb (str_eqb k) order).
  - destruct (dict_get k categorized) as [items|]; [|reflexivity].
    now rewrite dict_get_set, E.
Qed.

Lemma first_category_In (items : dict (list str)) (s c : str) :
  first_category items s = Some c -> In c (keys items).
Proof.
  induction items as [|[k kws] items IH]; simpl; [discriminate|].
  destruct (any_keyword_in kws s); [intros [= ->]; now left|].
  intros H; right; now apply IH.
Qed.

Lemma categorize_in_order (x : str) :
  existsb (str_eqb (categorize_ingredient x)) category_order = true.
Proof.
  unfold categorize_ingredient.
  destruct (first_category food_categories (lower x)) as [c|] eqn:E;
    [|reflexivity].
  apply first_category_In in E; simpl in E.
  repeat (destruct E as [<- | E]; [reflexivity|]); destruct E.
Qed.

(** What the processed list holds under a category. *)
Lemma process_ingredients_list_get (ingredients : list str) (c : str) :
  dict_get c (process_ingredients_list list_of_set ingredients)
  = match selected c ingredients with
    | [] => None
    | items => Some (canon items)
    end.
Proof.
  unfold process_ingredients_list; cbv zeta.
  rewrite order_loop_get.
  change (categorize_all ingredients) with (categorize_from ingredients []).
  rewrite categorize_from_get.
  destruct (selected c ingredients) as [|y items] eqn:E.
  - now destruct (existsb (str_eqb c) category_order).
  - assert (Hy : In y (selected c ingredients)) by (rewrite E; now left).
    apply filter_In in Hy as [_ Hy]; apply str_eqb_eq in Hy as ->.
    now rewrite categorize_in_order.
Qed.

Lemma selected_In (ingredients : list str) (c x : str) :
  In x (selected c ingredients)
  <-> exists raw, In raw ingredients /\ clean_ingredient raw = x
                  /\ 3 <= length x /\ categorize_ingredient x = c.
Proof.
  unfold selected, kept; rewrite !filter_In, in_map_iff, str_eqb_eq.
  rewrite andb_true_iff, Nat.ltb_lt, negb_true_iff, Nat.eqb_neq.
  split.
  - intros [[[raw [Hc Hin]] [_ Hlen]] Hcat]; exists raw; auto.
  - intros [raw [Hin [Hc [Hlen Hcat]]]]; repeat split; auto; try lia.
    now exists raw.
Qed.

(** *** The invariants of a shopping list *)

(** C7 (amended): in the output of [process_ingredients_list] and of
    [merge_shopping_lists] every category present maps to a strictly
    ascending, duplicate-free item sequence.  [process_ingredients_list]
    has a category exactly when an ingredient is kept under it, and never
    maps a category to an empty sequence; [merge_shopping_lists] has
    exactly the categories of its inputs, and maps one to an empty sequence
    only when every input list that has the category maps it to an empty
    sequence. *)
Theorem shopping_list_sorted_nonempty :
  (forall (ingredients : list str) (c : str) (items : list str),
      dict_get c (process_ingredients_list list_of_set ingredients)
      = Some items ->
      StronglySorted str_lt items /\ NoDup items /\ items <> [])
  /\ (forall (ingredients : list str) (c : str),
      (exists items,
          dict_get c (process_ingredients_list list_of_set ingredients)
          = Some items)
      <-> (exists raw, In raw ingredients
                       /\ 3 <= length (clean_ingredient raw)
                       /\ categorize_ingredient (clean_ingredient raw) = c))
  /\ (forall (lists : list (dict (list str))) (c : str) (items : list str),
      dict_get c (merge_shopping_lists list_of_set lists) = Some items ->
      StronglySorted str_lt items /\ NoDup items
      /\ (items = [] ->
          forall sl v, In sl lists -> dict_get c sl = Some v -> v = []))
  /\ (forall (lists : list (dict (list str))) (c : str),
      (exists items,
          dict_get c (merge_shopping_lists list_of_set lists) = Some items)
      <-> (exists sl v, In sl lists /\ dict_get c sl = Some v)).
Proof.
  split; [|split; [|split]].
  - intros ingredients c items; rewrite process_ingredients_list_get.
    destruct (selected c ingredients) as [|y l] eqn:E; [discriminate|].
    intros [= <-]; repeat split.
    + apply canon_strict.
    + apply strict_NoDup, canon_strict.
    + intros H; apply (proj1 (canon_nil _)) in H; discriminate.
  - intros ingredients c; rewrite process_ingredients_list_get; split.
    + intros [items H].
      destruct (selected c ingredients) as [|y l] eqn:E; [discriminate|].
      assert (Hy : In y (selected c ingredients)) by (rewrite E; now left).
      apply selected_In in Hy as (raw & Hin & <- & Hlen & Hc).
      now exists raw.
    + intros (raw & Hin & Hlen & Hc).
      assert (Hy : In (clean_ingredient raw) (selected c ingredients))
        by (apply selected_In; now exists raw).
      destruct (selected c ingredients) as [|y l]; [destruct Hy|].
      now exists (canon (y :: l)).
  - intros lists c items; rewrite merge_shopping_lists_get.
    destruct (existsb (mentions c) lists); [|discriminate].
    intros [= <-]; repeat split.
    + apply canon_strict.
    + apply strict_NoDup, canon_strict.
    + intros H sl v Hin Hv; apply (proj1 (canon_nil _)) in H.
      destruct v as [|x v]; [reflexivity|].
      assert (Hx : In x (flat_map (items_under c) lists)).
      { apply in_flat_map; exists sl; split; [exact Hin|].
        clear Hin H; induction sl as [|[k w] sl IH]; [discriminate|].
        rewrite items_under_cons; simpl in Hv.
        destruct (str_eqb c k); apply in_or_app;
          [injection Hv as ->; left; now left | right; now apply IH]. }
      now rewrite H in Hx.
  - intros lists c; rewrite merge_shopping_lists_get; split.
    + intros [items H].
      destruct (existsb (mentions c) lists) eqn:M; [|discriminate].
      apply existsb_exists in M as [sl [Hin M]].
      rewrite mentions_dict_get in M.
      destruct (dict_get c sl) as [v|] eqn:G; [|discriminate].
      now exists sl, v.
    + intros (sl & v & Hin & G).
      assert (M : existsb (mentions c) lists = true).
      { apply existsb_exists; exists sl; split; [exact Hin|].
        now rewrite mentions_dict_get, G. }
      rewrite M; now eexists.
Qed.

(** C10: a list whose item sequences are sorted and duplicate-free is
    left unchanged, in content, by merging it alone and by merging it
    with itself. *)
Theorem merge_shopping_lists_idempotent (A : dict (list str)) :
  NoDup (keys A) ->
  (forall c items, dict_get c A = Some items ->
                   Sorted str_le items /\ NoDup items) ->
  dict_eq (merge_shopping_lists list_of_set [A]) A
  /\ dict_eq (merge_shopping_lists list_of_set [A; A]) A.
Proof.
  intros Hk Hs; split; intros c; rewrite merge_shopping_lists_get;
    cbn [existsb flat_map]; rewrite !items_under_dd_get by exact Hk;
    rewrite !mentions_dict_get; unfold dd_get;
    destruct (dict_get c A) as [items|] eqn:E; try reflexivity;
    cbn [truthy orb]; f_equal;
    destruct (Hs c items E) as [Hsorted Hnd];
    (transitivity (canon items);
     [apply canon_ext; intros x; rewrite !in_app_iff; simpl; tauto
     |apply canon_fixed, sorted_NoDup_strict; assumption]).
Qed.

(** *** The normalizer and the filter *)

(** C9: [clean_ingredient] accepts every string and returns a lower-cased
    string, one that [str.lower] leaves unchanged, with no whitespace at
    either end and no two whitespace characters in a row;
    [process_ingredients_list] keeps exactly the ingredients whose cleaned
    form has 3 characters or more, under their category, and drops those
    whose cleaned form has 2 or fewer. *)
Theorem clean_ingredient_and_filter_boundary :
  (forall raw : str,
      let cleaned := clean_ingredient raw in
      trimmed cleaned
      /\ (forall pre c1 c2 post,
             cleaned = pre ++ c1 :: c2 :: post ->
             isspace c1 = true -> isspace c2 = false)
      /\ lower cleaned = cleaned)
  /\ clean_ingredient (py "") = py ""
  /\ (forall (ingredients : list str) (c x : str),
        (exists items,
            dict_get c (process_ingredients_list list_of_set ingredients)
            = Some items /\ In x items)
        <-> (exists raw, In raw ingredients /\ clean_ingredient raw = x
                         /\ 3 <= length x /\ categorize_ingredient x = c)).
Proof.
  split; [|split; [reflexivity|]].
  - intros raw cleaned.
    destruct (clean_ingredient_normal raw) as [Ht [Ha Hl]].
    repeat split; try assumption; try apply Ht.
    intros pre c1 c2 post; now apply adjacent_ws_false.
  - intros ingredients c x.
    rewrite <- selected_In, process_ingredients_list_get; split.
    + intros [items [H Hin]].
      destruct (selected c ingredients) as [|y l]; [discriminate|].
      injection H as <-; now apply (proj1 (canon_In _ _)) in Hin.
    + intros Hin; destruct (selected c ingredients) as [|y l] eqn:E;
        [destruct Hin|].
      exists (canon (y :: l)); split; [reflexivity | now apply canon_In].
Qed.

(** *** [generate_recipe_summary] *)

(** [if transcript:] on the transcript of a video record. *)
Definition has_transcript (video : Video.t) : bool :=
  negb (length (get_or (Video.transcript video) (py "")) =? 0).

Definition instructions_of (video : Video.t) : list str :=
  extract_cooking_instructions (get_or (Video.transcript video) (py "")).

Definition tutorial_of (video : Video.t) : Tutorial.t :=
  Tutorial.Make (get_or (Video.title video) (py ""))
                (get_or (Video.video_id video) (py ""))
                (get_or (Video.channel_title video) (py ""))
                (watch_url (get_or (Video.video_id video) (py ""))).

Lemma summarize_loop (videos : list Video.t) (instructions : list str)
      (tutorials : list Tutorial.t) :
  fold_left
    (fun '(instructions, tutorials) video =>
       let transcript := get_or (Video.transcript video) (py "") in
       if negb (length transcript =? 0) then
         (instructions ++ extract_cooking_instructions transcript,
          tutorials ++
            [Tutorial.Make (get_or (Video.title video) (py ""))
                           (get_or (Video.video_id video) (py ""))
                           (get_or (Video.channel_title video) (py ""))
                           (watch_url (get_or (Video.video_id video) (py "")))])
       else (instructions, tutorials))
    videos (instructions, tutorials)
  = (instructions ++ flat_map instructions_of (filter has_transcript videos),
     tutorials ++ map tutorial_of (filter has_transcript videos)).
Proof.
  revert instructions tutorials; induction videos as [|v videos IH];
    intros instructions tutorials.
  - simpl; now rewrite !app_nil_r.
  - cbn [fold_left filter]; cbv zeta.
    change (negb (length (get_or (Video.transcript v) (py "")) =? 0))
      with (has_transcript v).
    destruct (has_transcript v).
    + rewrite IH; cbn [flat_map map]; now rewrite <- !app_assoc.
    + apply IH.
Qed.

(** C8: [total_videos] counts the video records of the input, with or
    without a transcript; one tutorial is listed per video with a
    non-empty transcript, so never more than [total_videos]; and
    [cooking_instructions] holds at most 15 entries, without repetition,
    each of them extracted from the transcript of some video. *)
Theorem generate_recipe_summary_counts (recipe_data : RecipeData.t) :
  let summary := generate_recipe_summary list_of_set recipe_data in
  let videos := get_or (RecipeData.videos recipe_data) [] in
  Summary.total_videos summary = length videos
  /\ length (Summary.video_tutorials summary)
     = length (filter has_transcript videos)
  /\ length (Summary.video_tutorials summary) <= Summary.total_videos summary
  /\ length (Summary.cooking_instructions summary) <= 15
  /\ NoDup (Summary.cooking_instructions summary)
  /\ (forall x, In x (Summary.cooking_instructions summary) ->
                exists video, In video videos /\ has_transcript video = true
                              /\ In x (instructions_of video)).
Proof.
  unfold generate_recipe_summary, summarize_videos; cbv zeta.
  rewrite summarize_loop; cbn [Summary.total_videos Summary.video_tutorials
                                 Summary.cooking_instructions app].
  repeat split.
  - now rewrite length_map.
  - rewrite length_map; apply filter_length_le.
  - rewrite length_firstn; lia.
  - apply firstn_NoDup, list_of_set_NoDup.
  - intros x Hx; apply firstn_In in Hx.
    apply (proj1 (list_of_set_In _ _)) in Hx.
    apply in_flat_map in Hx as [video [Hv Hx]].
    apply filter_In in Hv as [Hv Ht]; now exists video.
Qed.
End SetSemantics.

(* ------------------------------------------------------------------ *)
(** ** The theorems on concrete lists

    [first_seen] is one admissible [list(set(l))]. *)

Definition list_a : dict (list str) :=
  [(py "Produce", [py "onion"; py "garlic"]); (py "Bakery", [py "bread"])].

Definition list_b : dict (list str) :=
  [(py "Bakery", [py "rolls"; py "bread"]); (py "Frozen", [py "ice cream"])].

Definition list_c : dict (list str) :=
  [(py "Produce", [py "lemon"; py "garlic"])].

Lemma merge_shopping_lists_comm_assoc_witness :
  dict_eq (merge_shopping_lists first_seen [list_a; list_b])
          (merge_shopping_lists first_seen [list_b; list_a])
  /\ dict_eq
       (merge_shopping_lists first_seen
          [merge_shopping_lists first_seen [list_a; list_b]; list_c])
       (merge_shopping_lists first_seen
          [list_a; merge_shopping_lists first_seen [list_b; list_c]])
  /\ merge_shopping_lists first_seen [list_a; list_b]
     = [(py "Produce", [py "garlic"; py "onion"]);
        (py "Bakery", [py "bread"; py "rolls"]);
        (py "Frozen", [py "ice cream"])]
  /\ (forall x, In x [py "bread"; py "rolls"]
                <-> exists sl v, In sl [list_a; list_b]
                                 /\ In (py "Bakery", v) sl /\ In x v)
  /\ (forall sl v, In sl [list_a; list_b] -> ~ In (py "Dairy & Eggs", v) sl).
Proof.
  destruct (merge_shopping_lists_comm_assoc
              first_seen first_seen_NoDup first_seen_In)
    as (Hcomm & Hassoc & Hunion).
  split; [apply Hcomm|].
  split; [apply Hassoc|].
  split; [vm_compute; reflexivity|].
  split.
  - exact (proj2 (proj2 (Hunion [list_a; list_b] (py "Bakery")))).
  - exact (Hunion [list_a; list_b] (py "Dairy & Eggs")).
Defined.

Lemma shopping_list_sorted_nonempty_witness :
  (let items := [py "1 onion"; py "garlic"; py "lemon"] in
   StronglySorted str_lt items /\ NoDup items /\ items <> [])
  /\ process_ingredients_list first_seen
       (map py ["Lemon"; " garlic"; "1  onion"; "lemon "; "ab"; "Bread"]%string)
     = [(py "Produce", [py "1 onion"; py "garlic"; py "lemon"]);
        (py "Bakery", [py "bread"])]
  /\ (exists items,
         dict_get (py "Bakery")
           (process_ingredients_list first_seen
              (map py ["Lemon"; " garlic"; "1  onion"; "lemon "; "ab";
                       "Bread"]%string))
         = Some items)
  /\ (exists items,
         dict_get (py "Frozen")
           (merge_shopping_lists first_seen [list_a; list_b])
         = Some items).
Proof.
  destruct (shopping_list_sorted_nonempty
              first_seen first_seen_NoDup first_seen_In)
    as (Hsorted & Hkept & _ & Hkeys).
  split; [|split; [|split]].
  - apply (Hsorted
             (map py ["Lemon"; " garlic"; "1  onion"; "lemon "; "ab";
                      "Bread"]%string)
             (py "Produce")).
    vm_compute; reflexivity.
  - vm_compute; reflexivity.
  - apply Hkept; exists (py "Bread"); split; [|split].
    + simpl; tauto.
    + vm_compute; lia.
    + vm_compute; reflexivity.
  - apply Hkeys; exists list_b, [py "ice cream"]; split.
    + simpl; tauto.
    + vm_compute; reflexivity.
Defined.

(** C7 as the specification words it fails: merging a list that maps Frozen
    to the empty sequence keeps Frozen, mapped to the empty sequence. *)
Lemma merge_shopping_lists_empty_counterexample :
  dict_get (py "Frozen")
    (merge_shopping_lists first_seen
       [[(py "Produce", [py "onion"])]; [(py "Frozen", [])]])
  = Some [].
Proof. vm_compute; reflexivity. Qed.

(** A list with sorted, duplicate-free item sequences. *)
Definition sorted_list : dict (list str) :=
  [(py "Produce", [py "garlic"; py "onion"]); (py "Bakery", [py "bread"])].

Lemma merge_shopping_lists_idempotent_witness :
  dict_eq (merge_shopping_lists first_seen [sorted_list]) sorted_list
  /\ dict_eq (merge_shopping_lists first_seen [sorted_list; sorted_list])
             sorted_list.
Proof.
  apply (merge_shopping_lists_idempotent
           first_seen first_seen_NoDup first_seen_In).
  - repeat (constructor; [simpl; intuition discriminate|]); constructor.
  - intros c items; unfold sorted_list; simpl.
    repeat match goal with
           | |- context [str_eqb c ?k] => destruct (str_eqb c k)
           end;
      try discriminate; intros [= <-]; split;
      repeat (constructor; try reflexivity;
              try (simpl; intuition discriminate)).
Defined.

Lemma clean_ingredient_and_filter_boundary_witness :
  (exists raw, In raw (map py ["ab"; " Abc "]%string)
               /\ clean_ingredient raw = py "abc"
               /\ 3 <= length (py "abc")
               /\ categorize_ingredient (py "abc") = py "Other")
  /\ ~ (exists items,
           dict_get (py "Other")
             (process_ingredients_list first_seen
                (map py ["ab"; " Abc "]%string))
           = Some items /\ In (py "ab") items).
Proof.
  pose proof (proj2 (proj2 (clean_ingredient_and_filter_boundary
                              first_seen first_seen_In))
                    (map py ["ab"; " Abc "]%string) (py "Other")) as H.
  split.
  - apply (proj1 (H (py "abc"))).
    exists [py "abc"]; split; [vm_compute; reflexivity | now left].
  - intros Hex; apply (proj1 (H (py "ab"))) in Hex.
    destruct Hex as [raw [_ [_ [Hlen _]]]]; simpl in Hlen; lia.
Defined.

(** Three video records: two with a transcript of more than ten qualifying
    sentences each, one without a transcript. *)
Definition other_sentences : str :=
  py ("Stir the sauce one. Stir the sauce two. Stir the sauce three. "
      ++ "Stir the sauce four. Stir the sauce five. Stir the sauce six. "
      ++ "Stir the sauce seven. Stir the sauce eight. Stir the sauce nine. "
      ++ "Stir the sauce ten. Stir the sauce eleven.").

Definition three_videos : RecipeData.t :=
  RecipeData.Make
    (Some (py "pasta"))
    (Some [Video.Make (Some (py "one")) (Some (py "id1")) (Some (py "ch"))
                      (Some twelve_sentences);
           Video.Make (Some (py "two")) (Some (py "id2")) (Some (py "ch")) None;
           Video.Make (Some (py "three")) None (Some (py "ch"))
                      (Some other_sentences)])
    (Some [py "2 cups flour"; py "1 onion"]).

Lemma generate_recipe_summary_counts_witness :
  let summary := generate_recipe_summary first_seen three_videos in
  Summary.total_videos summary = 3
  /\ length (Summary.video_tutorials summary) = 2
  /\ length (Summary.video_tutorials summary) <= Summary.total_videos summary
  /\ length (Summary.cooking_instructions summary) <= 15
  /\ length (Summary.cooking_instructions summary) = 15.
Proof.
  destruct (@generate_recipe_summary_counts first_seen first_seen_NoDup
              first_seen_In three_videos) as (H1 & H2 & H3 & H4 & _).
  split; [exact H1|].
  split; [exact H2|].
  split; [exact H3|].
  split; [exact H4|].
  vm_compute; reflexivity.
Defined.
(* ------------------------------------------------------------------ *)
(** ** What a match is made of

    The words that a pattern denotes, and the fact that the matcher only
    reports such words. *)

Fixpoint lang (r : regex) (m : str) : Prop :=
  match r with
  | Eps => m = []
  | Str w => m = w
  | Class cls => exists c, m = [c] /\ cls c = true
  | Star cls => Forall (fun c => cls c = true) m
  | Seq r1 r2 => exists m1 m2, m = m1 ++ m2 /\ lang r1 m1 /\ lang r2 m2
  | Alt r1 r2 => lang r1 m \/ lang r2 m
  | Opt r1 => m = [] \/ lang r1 m
  | Group _ r1 => lang r1 m
  end.

Lemma starts_with_split (w s : str) :
  starts_with w s = true -> s = w ++ skipn (length w) s.
Proof.
  intros H; apply starts_with_iff in H as [post ->].
  now rewrite skipn_app, Nat.sub_diag, skipn_all.
Qed.

Lemma star_m_sound {A} (cls : ascii -> bool) (s : str) (k : str -> option A)
      (res : A) :
  star_m cls s k = Some res ->
  exists m s', s = m ++ s' /\ Forall (fun c => cls c = true) m
               /\ k s' = Some res.
Proof.
  induction s as [|c s IH]; simpl.
  - intros H; now exists [], [].
  - destruct (cls c) eqn:E; [|intros H; now exists [], (c :: s)].
    intros H; apply or_else_Some in H as [H | [_ H]].
    + destruct (IH H) as (m & s' & -> & Hm & Hk).
      exists (c :: m), s'; repeat split; auto.
    + now exists [], (c :: s).
Qed.

Lemma firstn_consumed {A} (m s' : list A) :
  firstn (length (m ++ s') - length s') (m ++ s') = m.
Proof.
  rewrite length_app.
  replace (length m + length s' - length s') with (length m + 0) by lia.
  now rewrite firstn_app_2, app_nil_r.
Qed.

(** Every match splits the input into a word of the pattern and the rest,
    which goes to the continuation; the groups that the pattern cannot set
    reach the continuation unchanged. *)
Lemma re_m_sound {A} (r : regex) :
  forall (s : str) (caps : captures) (k : str -> captures -> option A)
         (res : A),
    re_m r s caps k = Some res ->
    exists m s' caps',
      s = m ++ s' /\ lang r m /\ k s' caps' = Some res
      /\ forall n, has_group n r = false -> group n caps' = group n caps.
Proof.
  induction r as [|w|cls|cls|r1 IH1 r2 IH2|r1 IH1 r2 IH2|r1 IH1|j r1 IH1];
    cbn [has_group re_m lang]; intros s caps k res H.
  - now exists [], s, caps.
  - destruct (starts_with w s) eqn:E; [|discriminate].
    exists w, (skipn (length w) s), caps; repeat split; auto.
    now apply starts_with_split.
  - destruct s as [|c s]; [discriminate|].
    destruct (cls c) eqn:E; [|discriminate].
    exists [c], s, caps; repeat split; auto; now exists c.
  - apply star_m_sound in H as (m & s' & -> & Hm & H).
    now exists m, s', caps.
  - apply IH1 in H as (m1 & s1 & caps1 & -> & L1 & H & G1).
    apply IH2 in H as (m2 & s2 & caps2 & -> & L2 & H & G2).
    exists (m1 ++ m2), s2, caps2; repeat split.
    + now rewrite app_assoc.
    + now exists m1, m2.
    + exact H.
    + intros n Hn; apply orb_false_iff in Hn as [Hn1 Hn2].
      rewrite (G2 n Hn2); now apply G1.
  - apply or_else_Some in H as [H | [_ H]].
    + apply IH1 in H as (m & s' & caps' & -> & L & H & G).
      exists m, s', caps'; repeat split; auto.
      intros n Hn; apply orb_false_iff in Hn as [Hn1 _]; now apply G.
    + apply IH2 in H as (m & s' & caps' & -> & L & H & G).
      exists m, s', caps'; repeat split; auto.
      intros n Hn; apply orb_false_iff in Hn as [_ Hn2]; now apply G.
  - apply or_else_Some in H as [H | [_ H]].
    + apply IH1 in H as (m & s' & caps' & -> & L & H & G).
      exists m, s', caps'; repeat split; auto.
    + exists [], s, caps; repeat split; auto.
  - apply IH1 in H as (m & s' & caps' & -> & L & H & G).
    rewrite firstn_consumed in H.
    exists m, s', ((j, m) :: caps'); repeat split; auto.
    intros n Hn; apply orb_false_iff in Hn as [Hj Hn].
    cbn [group]; rewrite Hj; now apply G.
Qed.

(** A group holds the word that its pattern matched. *)
Lemma group_sound {A} (j : nat) (r : regex) (s : str) (caps : captures)
      (k : str -> captures -> option A) (res : A) :
  re_m (Group j r) s caps k = Some res ->
  exists m s' caps',
    s = m ++ s' /\ lang r m /\ k s' ((j, m) :: caps') = Some res
    /\ forall n, has_group n r = false -> group n caps' = group n caps.
Proof.
  cbn [re_m]; intros H.
  apply re_m_sound in H as (m & s' & caps' & -> & L & H & G).
  rewrite firstn_consumed in H.
  now exists m, s', caps'.
Qed.

Lemma lang_alt_join (ws : list str) (m : str) :
  ws <> [] -> lang (alt_join ws) m -> In m ws.
Proof.
  intros Hne; induction ws as [|w ws IH]; [congruence|].
  destruct ws as [|w' ws].
  - cbn [alt_join lang]; intros ->; now left.
  - change (alt_join (w :: w' :: ws)) with (Alt (Str w) (alt_join (w' :: ws))).
    cbn [lang]; intros [-> | H]; [now left|].
    right; apply IH; [discriminate | exact H].
Qed.

Lemma lang_Plus (cls : ascii -> bool) (m : str) :
  lang (Plus cls) m ->
  exists c rest, m = c :: rest /\ cls c = true
                 /\ Forall (fun x => cls x = true) rest.
Proof.
  unfold Plus; cbn [lang].
  intros (m1 & m2 & -> & (c & -> & Hc) & H2); now exists c, m2.
Qed.

Lemma lang_quantity_re (m : str) :
  lang quantity_re m -> exists d rest, m = d :: rest /\ isdigit d = true.
Proof.
  unfold quantity_re, number_re; cbn [lang].
  intros (m1 & m2 & -> & (m3 & m4 & -> & H3 & _) & _).
  apply lang_Plus in H3 as (d & rest & -> & Hd & _).
  now exists d, ((rest ++ m4) ++ m2).
Qed.

(** A greedy repetition whose continuation always accepts stops at the end
    of the input or at the first character outside the class. *)
Lemma star_m_greedy {A} (cls : ascii -> bool) (s : str) (k : str -> option A)
      (res : A) :
  (forall s', truthy (k s') = true) ->
  star_m cls s k = Some res ->
  exists m s', s = m ++ s' /\ Forall (fun c => cls c = true) m
               /\ k s' = Some res
               /\ (s' = [] \/ exists c r, s' = c :: r /\ cls c = false).
Proof.
  intros Hk; induction s as [|c s IH]; simpl.
  - intros H; exists [], []; auto.
  - destruct (cls c) eqn:E.
    + pose proof (star_m_total cls s k Hk) as Ht.
      destruct (star_m cls s k) as [r0|] eqn:E0; [|discriminate].
      simpl; intros [= <-].
      destruct (IH eq_refl) as (m & s' & -> & Hm & Hs & Hend).
      exists (c :: m), s'; repeat split; auto.
    + intros H; exists [], (c :: s); repeat split; auto.
      right; now exists c, s.
Qed.

(** The last group of both patterns: one character that is not a newline,
    and all such characters that follow it. *)
Lemma item_group_inv (j : nat) (s : str) (caps m : captures) :
  re_m (Group j (Plus dot)) s caps (fun _ caps' => Some caps') = Some m ->
  exists i rest,
    s = i ++ rest /\ i <> [] /\ Forall (fun c => dot c = true) i
    /\ m = (j, i) :: caps
    /\ (rest = [] \/ exists c r, rest = c :: r /\ dot c = false).
Proof.
  unfold Plus; cbn [re_m].
  destruct s as [|c s]; [discriminate|].
  destruct (dot c) eqn:E; [|discriminate].
  intros H; apply star_m_greedy in H as (i & rest & -> & Hi & H & Hend);
    [|reflexivity].
  change (c :: i ++ rest) with ((c :: i) ++ rest) in H.
  rewrite firstn_consumed in H; injection H as <-.
  exists (c :: i), rest; repeat split; auto; discriminate.
Qed.

Lemma re_m_Seq {A} (r1 r2 : regex) (s : str) (caps : captures)
      (k : str -> captures -> option A) :
  re_m (Seq r1 r2) s caps k
  = re_m r1 s caps (fun s' caps' => re_m r2 s' caps' k).
Proof. reflexivity. Qed.

Lemma pattern_match_inv (t : str) (m : captures) :
  re_match pattern t = Some m ->
  exists q mid1 u mid2 i rest,
    t = q ++ mid1 ++ u ++ mid2 ++ i ++ rest
    /\ group 1 m = q /\ group 2 m = u /\ group 3 m = i
    /\ lang quantity_re q /\ In u units
    /\ i <> [] /\ Forall (fun c => dot c = true) i
    /\ (rest = [] \/ exists c r, rest = c :: r /\ dot c = false).
Proof.
  unfold re_match, pattern; rewrite re_m_Seq; intros H.
  apply group_sound in H as (q & s1 & caps1 & -> & Lq & H & _).
  rewrite re_m_Seq in H.
  apply re_m_sound in H as (mid1 & s2 & caps1' & -> & _ & H & G1).
  rewrite re_m_Seq in H.
  apply group_sound in H as (u & s3 & caps2 & -> & Lu & H & G2).
  unfold item_re in H; rewrite re_m_Seq in H.
  apply re_m_sound in H as (sp & s4 & caps3 & -> & _ & H & G3).
  rewrite re_m_Seq in H.
  apply re_m_sound in H as (o & s5 & caps4 & -> & _ & H & G4).
  apply item_group_inv in H as (i & rest & -> & Hi & Hdot & -> & Hend).
  exists q, mid1, u, (sp ++ o), i, rest.
  split; [now rewrite <- !app_assoc|].
  split.
  { cbn [group Nat.eqb].
    rewrite (G4 1 eq_refl), (G3 1 eq_refl); cbn [group Nat.eqb].
    rewrite (G2 1 eq_refl), (G1 1 eq_refl); reflexivity. }
  split.
  { cbn [group Nat.eqb].
    rewrite (G4 2 eq_refl), (G3 2 eq_refl); reflexivity. }
  split; [reflexivity|].
  split; [exact Lq|].
  split; [apply lang_alt_join in Lu; [exact Lu | discriminate]|].
  auto.
Qed.

Lemma quantity_pattern_match_inv (t : str) (m : captures) :
  re_match quantity_pattern t = Some m ->
  exists q mid i rest,
    t = q ++ mid ++ i ++ rest
    /\ group 1 m = q /\ group 2 m = i
    /\ lang quantity_re q /\ lang (Plus isspace) mid
    /\ i <> [] /\ Forall (fun c => dot c = true) i
    /\ (rest = [] \/ exists c r, rest = c :: r /\ dot c = false).
Proof.
  unfold re_match, quantity_pattern; rewrite re_m_Seq; intros H.
  apply group_sound in H as (q & s1 & caps1 & -> & Lq & H & _).
  rewrite re_m_Seq in H.
  apply re_m_sound in H as (mid & s2 & caps2 & -> & Lmid & H & G2).
  apply item_group_inv in H as (i & rest & -> & Hi & Hdot & -> & Hend).
  exists q, mid, i, rest.
  split; [reflexivity|].
  split; [cbn [group Nat.eqb]; now rewrite (G2 1 eq_refl)|].
  split; [reflexivity|].
  auto.
Qed.

(** X1: what the parser returns.  Either nothing is recognised and the
    string comes back whole, in its own case, with empty quantity and unit;
    or the lower-cased string reads quantity, filler, unit, filler, item,
    rest, where the quantity starts with a digit, the unit is empty or a
    word of the vocabulary, the item is not empty and has no newline, and
    the rest is empty or starts at a newline. *)
Theorem extract_quantity_and_unit_shape (ingredient : str) :
  let '(quantity, unit, item) := extract_quantity_and_unit ingredient in
  (quantity = [] /\ unit = [] /\ item = ingredient)
  \/ (exists mid1 mid2 rest,
         lower ingredient = quantity ++ mid1 ++ unit ++ mid2 ++ item ++ rest
         /\ (exists d q', quantity = d :: q' /\ isdigit d = true)
         /\ (unit = [] \/ In unit units)
         /\ item <> [] /\ Forall (fun c => dot c = true) item
         /\ (rest = [] \/ exists c r, rest = c :: r /\ dot c = false)).
Proof.
  unfold extract_quantity_and_unit.
  destruct (re_match pattern (lower ingredient)) as [m|] eqn:Hm.
  - right; apply pattern_match_inv in Hm
      as (q & mid1 & u & mid2 & i & rest & E & -> & -> & -> & Lq & Hu & Hi
          & Hdot & Hend).
    exists mid1, mid2, rest; repeat split; auto.
    now apply lang_quantity_re.
  - destruct (re_match quantity_pattern (lower ingredient)) as [m|] eqn:Hq.
    + right; apply quantity_pattern_match_inv in Hq
        as (q & mid & i & rest & E & -> & -> & Lq & _ & Hi & Hdot & Hend).
      exists mid, [], rest; repeat split; auto.
      now apply lang_quantity_re.
    + left; auto.
Qed.

(** X2: a string whose first character is not a decimal digit, and the
    empty string, come back whole and in their own case, with empty
    quantity and unit. *)
Theorem extract_quantity_and_unit_no_digit (ingredient : str) :
  (forall c rest, ingredient = c :: rest -> isdigit c = false) ->
  extract_quantity_and_unit ingredient = ([], [], ingredient).
Proof.
  intros H; unfold extract_quantity_and_unit, re_match.
  destruct ingredient as [|c rest]; [reflexivity|].
  assert (Hd : isdigit (lower_char c) = false).
  { specialize (H c rest eq_refl); revert H.
    destruct c as [[] [] [] [] [] [] [] []]; vm_compute; auto. }
  unfold pattern, quantity_pattern, quantity_re, number_re, Plus.
  cbn [lower map re_m]; now rewrite Hd.
Qed.

Lemma extract_quantity_and_unit_no_digit_witness :
  extract_quantity_and_unit (py "A Pinch of Salt")
  = ([], [], py "A Pinch of Salt").
Proof.
  apply extract_quantity_and_unit_no_digit.
  intros c rest [= <- _]; reflexivity.
Defined.

(* ------------------------------------------------------------------ *)
(** ** More about the normalizer and the classifier *)

Lemma strip_fixed (s : str) : trimmed s -> strip s = s.
Proof.
  intros [Hh Hl]; unfold strip, rstrip.
  rewrite (lstrip_fixed Hh), lstrip_fixed; [apply rev_involutive|].
  intros c rest H; apply (Hl (rev rest) c).
  rewrite <- (rev_involutive s), H; reflexivity.
Qed.

(** Every whitespace character that [re.sub] leaves is the one space that
    it wrote. *)
Lemma sub_runs_only_spaces (s : str) (b : bool) :
  Forall (fun c => isspace c = true -> c = " "%char)
         (sub_runs isspace space b s).
Proof.
  revert b; induction s as [|a s IH]; intros b; simpl; [constructor|].
  destruct (isspace a) eqn:Ea.
  - destruct b; [apply IH|].
    constructor; [reflexivity | apply IH].
  - constructor; [congruence | apply IH].
Qed.

Lemma lower_only_spaces (s : str) :
  Forall (fun c => isspace c = true -> c = " "%char) s ->
  Forall (fun c => isspace c = true -> c = " "%char) (lower s).
Proof.
  induction 1 as [|a s Ha Hs IH]; simpl; constructor; [|exact IH].
  rewrite isspace_lower_char; intros H; now rewrite (Ha H).
Qed.

(** A single-spaced string is what [re.sub] returns for it. *)
Lemma sub_runs_fixed (s : str) :
  adjacent_ws s = false ->
  Forall (fun c => isspace c = true -> c = " "%char) s ->
  sub_runs isspace space false s = s
  /\ (forall c rest, s = c :: rest -> isspace c = false ->
                     sub_runs isspace space true s = s).
Proof.
  intros Ha Hs; induction Hs as [|a s Hsp Hs IH]; [split; [reflexivity|]|].
  - intros c rest H; discriminate.
  - assert (Ha' : adjacent_ws s = false).
    { destruct s as [|c2 t]; [reflexivity|].
      rewrite adjacent_ws_cons in Ha; now apply orb_false_iff in Ha. }
    destruct (IH Ha') as [IH1 IH2]; simpl.
    destruct (isspace a) eqn:Ea; split.
    + rewrite (Hsp eq_refl); change (space ++ ?x) with (" "%char :: x).
      f_equal; destruct s as [|c2 t]; [reflexivity|].
      apply (IH2 c2 t eq_refl).
      rewrite adjacent_ws_cons, Ea in Ha; simpl in Ha.
      now apply orb_false_iff in Ha.
    + intros c rest [= <- _] H; congruence.
    + now rewrite IH1.
    + intros c rest _ _; now rewrite IH1.
Qed.

(** X3: cleaning a cleaned ingredient changes nothing. *)
Theorem clean_ingredient_idempotent (ingredient : str) :
  clean_ingredient (clean_ingredient ingredient) = clean_ingredient ingredient.
Proof.
  destruct (clean_ingredient_normal ingredient) as (Ht & Ha & Hl).
  assert (Hs : Forall (fun c => isspace c = true -> c = " "%char)
                      (clean_ingredient ingredient))
    by apply lower_only_spaces, sub_runs_only_spaces.
  set (cleaned := clean_ingredient ingredient) in *.
  change (clean_ingredient cleaned)
    with (lower (sub_runs isspace space false (strip cleaned))).
  now rewrite (strip_fixed Ht), (proj1 (sub_runs_fixed Ha Hs)).
Qed.

Lemma first_category_hit (s : str) (items : dict (list str)) (c : str) :
  first_category items s = None -> hits_in s items c = false.
Proof.
  unfold hits_in.
  induction items as [|[c' kws] items IH]; simpl; intros H; [reflexivity|].
  destruct (any_keyword_in kws s) eqn:E; [discriminate|].
  destruct (str_eqb c c'); [exact E | now apply IH].
Qed.

(** X4: the classifier answers with one of the eight category names, does
    not look at the case of the letters, and answers ["Other"] exactly
    when the lower-cased ingredient contains no keyword of the lexicon. *)
Theorem categorize_ingredient_range (ingredient : str) :
  In (categorize_ingredient ingredient) category_order
  /\ categorize_ingredient (lower ingredient) = categorize_ingredient ingredient
  /\ (categorize_ingredient ingredient = py "Other"
      <-> forall c, hits c ingredient = false).
Proof.
  split; [|split].
  - pose proof (categorize_in_order ingredient) as H.
    apply existsb_exists in H as [c [Hin E]].
    apply str_eqb_eq in E; now rewrite E.
  - unfold categorize_ingredient; now rewrite lower_idem.
  - unfold categorize_ingredient; split.
    + destruct (first_category food_categories (lower ingredient)) as [c|] eqn:E.
      * intros ->; apply first_category_In in E; exfalso; revert E.
        vm_compute; intuition discriminate.
      * intros _ c; now apply first_category_hit.
    + intros H.
      now rewrite (@first_category_no_hit (lower ingredient) food_categories H
                     food_categories_NoDup).
Qed.

(** The first category of the lexicon with a keyword in the string wins. *)
Lemma first_category_first (s : str) (pre post : dict (list str)) (c : str)
      (kws : list str) :
  any_keyword_in kws s = true ->
  Forall (fun p => any_keyword_in (snd p) s = false) pre ->
  first_category (pre ++ (c, kws) :: post) s = Some c.
Proof.
  intros Hhit Hpre; induction Hpre as [|[c' kws'] pre Hp Hpre IH]; simpl.
  - now rewrite Hhit.
  - simpl in Hp; now rewrite Hp.
Qed.

(** X5: the classifier returns the first category, in the order of the
    lexicon, that has a keyword in the lower-cased ingredient, however many
    categories have one. *)
Theorem categorize_ingredient_first_hit (ingredient : str)
        (pre post : dict (list str)) (c : str) (kws : list str) :
  food_categories = pre ++ (c, kws) :: post ->
  any_keyword_in kws (lower ingredient) = true ->
  Forall (fun p => any_keyword_in (snd p) (lower ingredient) = false) pre ->
  categorize_ingredient ingredient = c.
Proof.
  intros E Hhit Hpre; unfold categorize_ingredient; rewrite E.
  now rewrite (@first_category_first _ pre post c kws Hhit Hpre).
Qed.

Lemma categorize_ingredient_first_hit_witness :
  categorize_ingredient (py "Chicken stock with Mayo") = py "Meat & Seafood".
Proof.
  apply (@categorize_ingredient_first_hit
           (py "Chicken stock with Mayo")
           (firstn 1 food_categories) (skipn 2 food_categories)
           (py "Meat & Seafood")
           (map py ["chicken"; "beef"; "pork"; "fish"; "salmon"; "shrimp";
                    "turkey"; "bacon"; "ground beef"; "sausage";
                    "lamb"]%string)).
  - reflexivity.
  - reflexivity.
  - repeat constructor.
Defined.

(* ------------------------------------------------------------------ *)
(** ** More about the instruction extractor *)

Lemma split_runs_head (cls : ascii -> bool) (s : str) :
  exists q qs post, split_runs cls false s = q :: qs /\ s = q ++ post.
Proof.
  induction s as [|c s (q & qs & post & E & Hs)]; simpl.
  - now exists [], [], [].
  - destruct (cls c).
    + now exists [], (split_runs cls true s), (c :: s).
    + rewrite E; exists (c :: q), qs, post; now rewrite Hs at 1.
Qed.

(** Every piece of [re.split] is a part of the string. *)
Lemma split_runs_substring (cls : ascii -> bool) (b : bool) (s p : str) :
  In p (split_runs cls b s) -> exists pre post, s = pre ++ p ++ post.
Proof.
  revert b p; induction s as [|c s IH]; intros b p; simpl.
  - intros [<- | []]; now exists [], [].
  - destruct (cls c).
    + destruct b; simpl; intros H.
      * destruct (IH _ _ H) as (pre & post & ->); now exists (c :: pre), post.
      * destruct H as [<- | H]; [now exists [], (c :: s)|].
        destruct (IH _ _ H) as (pre & post & ->); now exists (c :: pre), post.
    + destruct (split_runs_head cls s) as (q & qs & post & E & Hs).
      rewrite E; simpl; intros [<- | H].
      * exists [], post; simpl; now rewrite Hs at 1.
      * destruct (IH false p) as (pre & post' & ->);
          [rewrite E; now right|].
        now exists (c :: pre), post'.
Qed.

Lemma strip_substring (s : str) : exists pre post, s = pre ++ strip s ++ post.
Proof.
  unfold strip.
  destruct (lstrip_suffix s) as [pre Hpre].
  destruct (rstrip_prefix (lstrip s)) as [post Hpost].
  exists pre, post; now rewrite <- Hpost.
Qed.

Lemma Forall_substring {A} (P : A -> Prop) (pre p post : list A) :
  Forall P (pre ++ p ++ post) -> Forall P p.
Proof.
  intros H; apply Forall_app in H as [_ H]; now apply Forall_app in H.
Qed.

(** X6: every instruction returned is a part of the transcript, copied as
    it stands there, without ['.'], ['!'] or ['?'] in it; and a transcript
    of 10 characters or fewer yields no instruction. *)
Theorem extract_cooking_instructions_verbatim (transcript : str) :
  Forall (fun sentence =>
            contains sentence transcript = true
            /\ Forall (fun c => is_punctuation c = false) sentence)
         (extract_cooking_instructions transcript)
  /\ (length transcript <= 10 -> extract_cooking_instructions transcript = []).
Proof.
  assert (H : Forall (fun sentence =>
            contains sentence transcript = true
            /\ Forall (fun c => is_punctuation c = false) sentence
            /\ 10 < length sentence)
         (extract_cooking_instructions transcript)).
  { rewrite extract_cooking_instructions_filter.
    apply Forall_forall; intros s Hs; apply firstn_In in Hs.
    apply filter_In in Hs as [Hin Hq].
    apply in_map_iff in Hin as [piece [<- Hin]].
    destruct (strip_substring piece) as (pre & post & Hp).
    pose proof (split_runs_pieces is_punctuation false transcript) as Hpieces.
    rewrite Forall_forall in Hpieces; specialize (Hpieces piece Hin).
    apply split_runs_substring in Hin as (pre' & post' & Ht).
    repeat split.
    - apply contains_iff; exists (pre' ++ pre), (post ++ post').
      rewrite Ht, Hp at 1; now rewrite <- !app_assoc.
    - rewrite Hp in Hpieces; now apply Forall_substring in Hpieces.
    - unfold qualifies in Hq; apply andb_true_iff in Hq as [Hq _].
      now apply Nat.ltb_lt. }
  split.
  - eapply Forall_impl; [|exact H]; simpl; tauto.
  - intros Hlen.
    destruct (extract_cooking_instructions transcript) as [|s l]; [reflexivity|].
    inversion H as [|? ? (Hc & _ & Hl) _]; subst.
    apply contains_iff in Hc as (pre & post & ->).
    rewrite !length_app in Hlen; lia.
Qed.

Lemma extract_cooking_instructions_verbatim_witness :
  extract_cooking_instructions (py "Add salt!") = [].
Proof.
  apply (extract_cooking_instructions_verbatim (py "Add salt!")).
  simpl; lia.
Defined.

(* ------------------------------------------------------------------ *)
(** ** More about shopping lists *)

Lemma dict_set_fresh {V} (d : dict V) (k : str) (v : V) :
  ~ In k (keys d) -> dict_set d k v = d ++ [(k, v)].
Proof.
  induction d as [|[k' v'] d IH]; simpl; intros H; [reflexivity|].
  destruct (str_eqb k k') eqn:E.
  - apply str_eqb_eq in E; exfalso; apply H; now left.
  - rewrite IH; [reflexivity | intros Hin; apply H; now right].
Qed.

Lemma keys_app {V} (d1 d2 : dict V) : keys (d1 ++ d2) = keys d1 ++ keys d2.
Proof. apply map_app. Qed.

Lemma dict_get_app_fresh {V} (d1 d2 : dict V) (k : str) :
  ~ In k (keys d1) -> dict_get k (d1 ++ d2) = dict_get k d2.
Proof.
  induction d1 as [|[k' v'] d1 IH]; simpl; intros H; [reflexivity|].
  destruct (str_eqb k k') eqn:E.
  - apply str_eqb_eq in E; exfalso; apply H; now left.
  - apply IH; intros Hin; apply H; now right.
Qed.

Section ShoppingListLayout.
Variable list_of_set : list str -> list str.
Hypothesis list_of_set_NoDup : forall l, NoDup (list_of_set l).
Hypothesis list_of_set_In : forall l x, In x (list_of_set l) <-> In x l.

(** The entry of a category: none without items, else the sorted set. *)
Definition entry (category : str) (items : list str) : dict (list str) :=
  match items with
  | [] => []
  | _ :: _ => [(category, canon list_of_set items)]
  end.

Lemma order_loop_closed (categorized : dict (list str)) (order : list str)
      (result : dict (list str)) :
  NoDup order ->
  (forall c, In c order -> ~ In c (keys result)) ->
  fold_left
    (fun result category =>
       match dict_get category categorized with
       | Some items => dict_set result category (canon list_of_set items)
       | None => result
       end)
    order result
  = result
    ++ flat_map (fun c => match dict_get c categorized with
                          | Some items => [(c, canon list_of_set items)]
                          | None => []
                          end) order.
Proof.
  intros Hnd; revert result; induction Hnd as [|k order Hk Hnd IH];
    intros result Hfresh; cbn [fold_left flat_map].
  - now rewrite app_nil_r.
  - destruct (dict_get k categorized) as [items|].
    + rewrite dict_set_fresh by (apply Hfresh; now left).
      rewrite IH; [now rewrite <- app_assoc|].
      intros c Hc; rewrite keys_app, in_app_iff; simpl.
      intros [H | [<- | []]]; [|contradiction].
      apply (Hfresh c); [now right | exact H].
    + apply IH; intros c Hc; apply Hfresh; now right.
Qed.

Lemma category_order_NoDup : NoDup category_order.
Proof.
  repeat (constructor; [simpl; intuition discriminate|]); constructor.
Qed.

Lemma categorize_all_get (ingredients : list str) (c : str) :
  dict_get c (categorize_all ingredients)
  = match selected c ingredients with
    | [] => None
    | items => Some items
    end.
Proof.
  change (categorize_all ingredients) with (categorize_from ingredients []).
  rewrite categorize_from_get.
  now destruct (selected c ingredients).
Qed.

Lemma process_ingredients_list_closed (ingredients : list str) :
  process_ingredients_list list_of_set ingredients
  = flat_map (fun c => entry c (selected c ingredients)) category_order.
Proof.
  unfold process_ingredients_list; cbv zeta.
  rewrite order_loop_closed; [|apply category_order_NoDup|intros c _ []].
  cbn [app]; apply flat_map_ext; intros c.
  rewrite categorize_all_get; unfold entry.
  now destruct (selected c ingredients).
Qed.

Lemma keys_entry_filter (c : str) (P Q : str -> bool) (f : str -> str)
      (l : list str) :
  keys (entry c (filter P (filter Q (map f l))))
  = if existsb (fun raw => Q (f raw) && P (f raw)) l then [c] else [].
Proof.
  induction l as [|raw l IH]; [reflexivity|].
  cbn [map filter existsb].
  destruct (Q (f raw)); cbn [andb filter orb]; [|exact IH].
  destruct (P (f raw)); cbn [orb]; [reflexivity | exact IH].
Qed.

Lemma entry_ext (c : str) (l1 l2 : list str) :
  (forall x, In x l1 <-> In x l2) -> entry c l1 = entry c l2.
Proof.
  intros H; unfold entry.
  destruct l1 as [|x l1], l2 as [|y l2]; try reflexivity.
  - exfalso; apply (H y); now left.
  - exfalso; apply (H x); now left.
  - f_equal; f_equal.
    now apply (canon_ext list_of_set list_of_set_NoDup list_of_set_In).
Qed.

Lemma selected_app (c : str) (l1 l2 : list str) :
  selected c (l1 ++ l2) = selected c l1 ++ selected c l2.
Proof. unfold selected; now rewrite map_app, !filter_app. Qed.

(** X7: the output of [process_ingredients_list] lists the categories in
    the fixed order Produce, Meat & Seafood, Dairy & Eggs, Pantry Staples,
    Bakery, Condiments, Frozen, Other, leaving out those under which no
    ingredient is kept, and maps each to the sorted set of the cleaned
    ingredients of 3 characters or more that are classified in it. *)
Theorem process_ingredients_list_layout (ingredients : list str) :
  process_ingredients_list list_of_set ingredients
  = flat_map
      (fun c =>
         entry c
           (filter (fun cleaned => str_eqb c (categorize_ingredient cleaned))
              (filter (fun cleaned => 2 <? length cleaned)
                 (map clean_ingredient ingredients))))
      category_order
  /\ keys (process_ingredients_list list_of_set ingredients)
     = filter (fun c => existsb
                          (fun raw =>
                             (2 <? length (clean_ingredient raw))
                             && str_eqb c (categorize_ingredient
                                             (clean_ingredient raw)))
                          ingredients)
              category_order.
Proof.
  rewrite process_ingredients_list_closed.
  assert (Hsel : forall c,
             selected c ingredients
             = filter (fun cleaned => str_eqb c (categorize_ingredient cleaned))
                 (filter (fun cleaned => 2 <? length cleaned)
                    (map clean_ingredient ingredients))).
  { intros c; unfold selected; f_equal.
    apply filter_ext; intros x; unfold kept.
    destruct (length x) as [|[|[|n]]]; reflexivity. }
  split.
  - apply flat_map_ext; intros c; now rewrite Hsel.
  - induction category_order as [|c order IH]; [reflexivity|].
    cbn [flat_map filter]; rewrite keys_app, IH, Hsel; clear IH Hsel.
    rewrite keys_entry_filter.
    now destruct (existsb _ ingredients).
Qed.

(** X8: the order of the ingredients and their repetitions do not matter:
    two inputs with the same ingredients give the same shopping list, the
    order of the categories included. *)
Theorem process_ingredients_list_same_elements (l1 l2 : list str) :
  (forall x, In x l1 <-> In x l2) ->
  process_ingredients_list list_of_set l1
  = process_ingredients_list list_of_set l2.
Proof.
  intros H; rewrite !process_ingredients_list_closed.
  apply flat_map_ext; intros c; apply entry_ext; intros x.
  rewrite !selected_In; split; intros (raw & Hin & Hx); exists raw;
    (split; [now apply H | exact Hx]).
Qed.

Lemma process_ingredients_list_keys (ingredients : list str) :
  NoDup (keys (process_ingredients_list list_of_set ingredients)).
Proof.
  rewrite process_ingredients_list_closed.
  pose proof category_order_NoDup as Hnd.
  induction Hnd as [|c order Hc Hnd IH]; [constructor|].
  cbn [flat_map]; rewrite keys_app.
  unfold entry at 1; destruct (selected c ingredients); [exact IH|].
  simpl; constructor; [|exact IH].
  intros Hin; apply Hc; clear IH Hnd Hc.
  induction order as [|k order IHo]; [destruct Hin|].
  cbn [flat_map] in Hin; rewrite keys_app, in_app_iff in Hin.
  destruct Hin as [Hin | Hin]; [|right; now apply IHo].
  unfold entry in Hin; destruct (selected k ingredients); [destruct Hin|].
  destruct Hin as [<- | []]; now left.
Qed.

(** X9: processing two batches and merging the results gives, in
    content, the list of processing the two batches together. *)
Theorem merge_of_processed (l1 l2 : list str) :
  dict_eq
    (merge_shopping_lists list_of_set
       [process_ingredients_list list_of_set l1;
        process_ingredients_list list_of_set l2])
    (process_ingredients_list list_of_set (l1 ++ l2)).
Proof.
  intros c; rewrite merge_shopping_lists_get; cbn [existsb flat_map].
  rewrite !items_under_dd_get by apply process_ingredients_list_keys.
  rewrite !mentions_dict_get; unfold dd_get.
  rewrite !process_ingredients_list_get, selected_app, orb_false_r, app_nil_r.
  destruct (selected c l1) as [|x1 s1], (selected c l2) as [|x2 s2];
    cbn [truthy orb app]; try reflexivity; f_equal;
    apply (canon_ext list_of_set list_of_set_NoDup list_of_set_In);
    intros x;
    repeat first [ rewrite in_app_iff
                 | rewrite (canon_In list_of_set list_of_set_In)
                 | progress cbn [In] ];
    tauto.
Qed.

End ShoppingListLayout.

Lemma process_ingredients_list_layout_witness :
  keys (process_ingredients_list first_seen
          (map py ["frozen pizza"; "Bread"; "2 onions"; "tofu"]%string))
  = map py ["Produce"; "Bakery"; "Frozen"; "Other"]%string.
Proof.
  rewrite (proj2 (process_ingredients_list_layout first_seen _)).
  vm_compute; reflexivity.
Defined.

Lemma process_ingredients_list_same_elements_witness :
  process_ingredients_list first_seen (map py ["Bread"; "2 onions"]%string)
  = process_ingredients_list first_seen
      (map py ["2 onions"; "Bread"; "2 onions"]%string).
Proof.
  apply (@process_ingredients_list_same_elements
           first_seen first_seen_NoDup first_seen_In).
  intros x; simpl; tauto.
Defined.

Lemma merge_of_processed_witness :
  dict_eq
    (merge_shopping_lists first_seen
       [process_ingredients_list first_seen (map py ["Bread"]%string);
        process_ingredients_list first_seen (map py ["2 onions"]%string)])
    (process_ingredients_list first_seen (map py ["Bread"; "2 onions"]%string))
  /\ keys (merge_shopping_lists first_seen
       [process_ingredients_list first_seen (map py ["Bread"]%string);
        process_ingredients_list first_seen (map py ["2 onions"]%string)])
     = map py ["Bakery"; "Produce"]%string
  /\ keys (process_ingredients_list first_seen
             (map py ["Bread"; "2 onions"]%string))
     = map py ["Produce"; "Bakery"]%string.
Proof.
  split; [|split; vm_compute; reflexivity].
  apply (@merge_of_processed first_seen first_seen_NoDup first_seen_In
           (map py ["Bread"]%string) (map py ["2 onions"]%string)).
Defined.

(* ------------------------------------------------------------------ *)
(** ** More about the recipe summary *)

Section SummaryLayout.
Variable list_of_set : list str -> list str.

(** X10: the summary lists one tutorial per video with a non-empty
    transcript, in the order of the videos, with the video's title, id and
    channel (empty when the key is missing) and the watch address of its
    id; the instructions are the first 15 of the set of those extracted
    from these videos. *)
Theorem generate_recipe_summary_layout (recipe_data : RecipeData.t) :
  let summary := generate_recipe_summary list_of_set recipe_data in
  let videos :=
    filter has_transcript (get_or (RecipeData.videos recipe_data) []) in
  Summary.video_tutorials summary = map tutorial_of videos
  /\ Summary.cooking_instructions summary
     = firstn 15 (list_of_set (flat_map instructions_of videos))
  /\ Forall (fun t => Tutorial.url t
                      = py "https://www.youtube.com/watch?v="
                        ++ Tutorial.video_id t)
            (Summary.video_tutorials summary).
Proof.
  unfold generate_recipe_summary, summarize_videos; cbv zeta.
  rewrite summarize_loop.
  cbn [Summary.video_tutorials Summary.cooking_instructions app].
  repeat split.
  apply Forall_forall; intros t Ht.
  apply in_map_iff in Ht as [video [<- _]]; reflexivity.
Qed.

End SummaryLayout.

(* ------------------------------------------------------------------ *)
(** ** [app.py]: the dishes of the form *)

Definition newline : ascii := ascii_of_N 10.

(** [s.split(sep)] for a separator of one character: every occurrence
    separates two pieces, empty ones included. *)
Fixpoint split_on (sep : ascii) (s : str) : list str :=
  match s with
  | [] => [[]]
  | c :: s' =>
      if (code c =? code sep)%N then [] :: split_on sep s'
      else
        match split_on sep s' with
        | p :: ps => (c :: p) :: ps
        | [] => [[c]]
        end
  end.

(** [[dish.strip() for dish in dishes_input.strip().split('\n')
      if dish.strip()]] *)
Definition parse_dishes (dishes_input : str) : list str :=
  map strip
      (filter (fun dish => negb (length (strip dish) =? 0))
              (split_on newline (strip dishes_input))).

Lemma split_on_head (sep : ascii) (s : str) :
  exists q qs post, split_on sep s = q :: qs /\ s = q ++ post.
Proof.
  induction s as [|c s (q & qs & post & E & Hs)]; simpl.
  - now exists [], [], [].
  - destruct (code c =? code sep)%N.
    + now exists [], (split_on sep s), (c :: s).
    + rewrite E; exists (c :: q), qs, post; now rewrite Hs at 1.
Qed.

Lemma split_on_substring (sep : ascii) (s p : str) :
  In p (split_on sep s) -> exists pre post, s = pre ++ p ++ post.
Proof.
  revert p; induction s as [|c s IH]; intros p; simpl.
  - intros [<- | []]; now exists [], [].
  - destruct (code c =? code sep)%N.
    + intros [<- | H]; [now exists [], (c :: s)|].
      destruct (IH _ H) as (pre & post & ->); now exists (c :: pre), post.
    + destruct (split_on_head sep s) as (q & qs & post & E & Hs).
      rewrite E; simpl; intros [<- | H].
      * exists [], post; simpl; now rewrite Hs at 1.
      * destruct (IH p) as (pre & post' & ->); [rewrite E; now right|].
        now exists (c :: pre), post'.
Qed.

Lemma split_on_pieces (sep : ascii) (s : str) :
  Forall (Forall (fun c => (code c =? code sep)%N = false)) (split_on sep s).
Proof.
  induction s as [|c s IH]; simpl.
  - repeat constructor.
  - destruct (code c =? code sep)%N eqn:E.
    + constructor; [constructor | exact IH].
    + destruct (split_on sep s) as [|p ps].
      * repeat constructor; exact E.
      * inversion IH; subst; constructor; [now constructor | assumption].
Qed.

Lemma split_on_no_sep (sep : ascii) (s : str) :
  Forall (fun c => (code c =? code sep)%N = false) s -> split_on sep s = [s].
Proof.
  induction 1 as [|c s Hc Hs IH]; simpl; [reflexivity|].
  now rewrite Hc, IH.
Qed.

Lemma lstrip_snoc (a : str) (c : ascii) :
  isspace c = false -> lstrip (a ++ [c]) <> [].
Proof.
  intros Hc; induction a as [|x a IH]; simpl.
  - now rewrite Hc.
  - destruct (isspace x); [exact IH | discriminate].
Qed.

(** A string that starts with a visible character is not stripped away. *)
Lemma strip_nonempty (c : ascii) (rest : str) :
  isspace c = false -> strip (c :: rest) <> [].
Proof.
  intros Hc; unfold strip, rstrip; simpl; rewrite Hc; simpl.
  intros H; apply (f_equal (@rev ascii)) in H; rewrite rev_involutive in H.
  now apply lstrip_snoc in H.
Qed.

(** X11: the dishes read from the form are not empty, have no whitespace
    at either end and no newline, and are parts of what was typed; there is
    at least one as soon as something visible was typed; and a single line
    is one dish, trimmed. *)
Theorem parse_dishes_lines (dishes_input : str) :
  Forall (fun dish =>
            dish <> [] /\ trimmed dish
            /\ Forall (fun c => (code c =? code newline)%N = false) dish
            /\ contains dish dishes_input = true)
         (parse_dishes dishes_input)
  /\ (strip dishes_input <> [] -> parse_dishes dishes_input <> [])
  /\ (strip dishes_input <> [] ->
      Forall (fun c => (code c =? code newline)%N = false)
             (strip dishes_input) ->
      parse_dishes dishes_input = [strip dishes_input]).
Proof.
  unfold parse_dishes; split; [|split].
  - apply Forall_forall; intros dish Hd.
    apply in_map_iff in Hd as [piece [<- Hp]].
    apply filter_In in Hp as [Hin Hne].
    pose proof (split_on_pieces newline (strip dishes_input)) as Hpieces.
    rewrite Forall_forall in Hpieces; specialize (Hpieces piece Hin).
    apply split_on_substring in Hin as (pre1 & post1 & H1).
    destruct (strip_substring piece) as (pre2 & post2 & H2).
    destruct (strip_substring dishes_input) as (pre0 & post0 & H0).
    repeat split.
    + intros E; rewrite E in Hne; discriminate.
    + apply strip_trimmed.
    + apply strip_trimmed.
    + rewrite H2 in Hpieces; now apply Forall_substring in Hpieces.
    + apply contains_iff.
      exists (pre0 ++ pre1 ++ pre2), (post2 ++ post1 ++ post0).
      rewrite H0, H1, H2 at 1; now rewrite <- !app_assoc.
  - intros Hne.
    destruct (strip dishes_input) as [|c rest] eqn:E; [congruence|].
    assert (Hc : isspace c = false)
      by (apply (proj1 (strip_trimmed dishes_input) c rest); exact E).
    assert (Hnl : (code c =? code newline)%N = false).
    { destruct (code c =? code newline)%N eqn:En; [|reflexivity].
      apply code_eqb_eq in En; subst c; discriminate. }
    cbn [split_on]; rewrite Hnl.
    destruct (split_on newline rest) as [|p ps]; cbn [filter];
      (destruct (length (strip _) =? 0) eqn:El; [|discriminate]);
      apply Nat.eqb_eq, length_zero_iff_nil in El;
      now apply strip_nonempty in El.
  - intros Hne Hnl; rewrite (@split_on_no_sep newline _ Hnl).
    cbn [filter].
    pose proof (strip_fixed (strip_trimmed dishes_input)) as Hfix.
    destruct (strip dishes_input) as [|a s]; [congruence|].
    rewrite Hfix; cbn [length Nat.eqb negb map]; now rewrite Hfix.
Qed.

Lemma parse_dishes_lines_witness :
  parse_dishes (py " Caesar Salad  ") = [py "Caesar Salad"].
Proof.
  apply (parse_dishes_lines (py " Caesar Salad  ")).
  - discriminate.
  - repeat constructor.
Defined.

(* ------------------------------------------------------------------ *)
(** ** [app.py]: the answer of the model, out of its fence *)

Definition backtick : ascii := "`"%char.

Definition fence_open : str := py "```json" ++ [newline].

Definition fence_close : str := newline :: py "```".

(** The pattern of the fenced block under [re.S]: the opening fence with
    its newline, any text at all in group 1 (greedy, newlines included),
    a newline and the closing fence. *)
Definition fence_pattern : regex :=
  Seq (Str fence_open)
      (Seq (Group 1 (Star (fun _ => true))) (Str fence_close)).

(** [generate_ai_shopping_list], from the answer to the text that goes to
    [json.loads]. *)
Definition json_str (response_text : str) : str :=
  match re_search fence_pattern response_text with
  | Some json_match => group 1 json_match
  | None => response_text
  end.

Lemma re_search_unfold (r : regex) (s : str) :
  re_search r s
  = or_else (re_match r s)
            match s with
            | [] => None
            | _ :: s' => re_search r s'
            end.
Proof. destruct s; reflexivity. Qed.

Lemma re_search_no_start (w : str) (r : regex) (s : str) :
  contains w s = false -> re_search (Seq (Str w) r) s = None.
Proof.
  induction s as [|c s IH]; cbn [contains re_search]; intros H;
    apply orb_false_iff in H as [H1 H2]; unfold re_match; cbn [re_m];
    rewrite H1; [reflexivity|].
  simpl; now apply IH.
Qed.

Lemma star_m_any_app {A} (a b : str) (k : str -> option A) (res : A) :
  star_m (fun _ => true) b k = Some res ->
  star_m (fun _ => true) (a ++ b) k = Some res.
Proof.
  intros H; induction a as [|c a IH]; [exact H|].
  simpl; now rewrite IH.
Qed.

Lemma star_m_any_none {A} (s : str) (k : str -> option A) :
  (forall pre t, s = pre ++ t -> k t = None) ->
  star_m (fun _ => true) s k = None.
Proof.
  induction s as [|c s IH]; intros H; simpl.
  - apply (H [] []); reflexivity.
  - rewrite IH; [apply (H [] (c :: s)); reflexivity|].
    intros pre t ->; apply (H (c :: pre) t); reflexivity.
Qed.

Lemma starts_with_fence_close (t : str) :
  Forall (fun c => (code c =? code backtick)%N = false) t ->
  starts_with fence_close t = false.
Proof.
  intros H; destruct (starts_with fence_close t) eqn:E; [|reflexivity].
  apply starts_with_iff in E as [post ->].
  inversion H as [|? ? _ H']; subst; inversion H' as [|? ? Hb _]; subst.
  discriminate.
Qed.

Lemma Forall_suffix {A} (P : A -> Prop) (pre t : list A) :
  Forall P (pre ++ t) -> Forall P t.
Proof. intros H; now apply Forall_app in H. Qed.

(** The greedy group stops at the last closing fence. *)
Lemma star_m_any_close {A} (body post : str) (k : str -> option A) (res : A) :
  (forall t, starts_with fence_close t = false -> k t = None) ->
  Forall (fun c => (code c =? code backtick)%N = false) post ->
  k (fence_close ++ post) = Some res ->
  star_m (fun _ => true) (body ++ fence_close ++ post) k = Some res.
Proof.
  intros Hk Hpost Hres; apply star_m_any_app.
  assert (Hin : star_m (fun _ => true) post k = None).
  { apply star_m_any_none; intros p t ->.
    apply Hk, starts_with_fence_close; now apply Forall_suffix in Hpost. }
  unfold fence_close, py in *.
  cbn [list_ascii_of_string app star_m] in *.
  rewrite Hin, (Hk ("`"%char :: post)) by reflexivity.
  rewrite (Hk ("`"%char :: "`"%char :: post)) by reflexivity.
  rewrite (Hk ("`"%char :: "`"%char :: "`"%char :: post)) by reflexivity.
  exact Hres.
Qed.

(** X12: an answer without the opening fence goes to the parser as it is;
    an answer with one fenced block, and no backtick before or after it,
    goes to the parser as the inside of the block, whatever that holds. *)
Theorem json_str_fenced :
  (forall response_text,
      contains fence_open response_text = false ->
      json_str response_text = response_text)
  /\ (forall pre body post,
      Forall (fun c => (code c =? code backtick)%N = false) pre ->
      Forall (fun c => (code c =? code backtick)%N = false) post ->
      json_str (pre ++ fence_open ++ body ++ fence_close ++ post) = body).
Proof.
  split.
  - intros response_text H; unfold json_str, fence_pattern.
    now rewrite re_search_no_start.
  - intros pre body post Hpre Hpost; unfold json_str.
    assert (Hm : re_match fence_pattern
                   (fence_open ++ body ++ fence_close ++ post)
                 = Some [(1, body)]).
    { unfold re_match, fence_pattern; cbn [re_m].
      change (starts_with fence_open (fence_open ++ ?x)) with true.
      cbn iota.
      change (skipn (length fence_open) (fence_open ++ ?x)) with x.
      apply star_m_any_close; [|exact Hpost|].
      - intros t Ht; now rewrite Ht.
      - change (starts_with fence_close (fence_close ++ post)) with true.
        cbn iota; f_equal; f_equal; f_equal.
        apply firstn_consumed. }
    assert (Hs : re_search fence_pattern
                   (pre ++ fence_open ++ body ++ fence_close ++ post)
                 = Some [(1, body)]).
    { induction Hpre as [|c pre Hc Hpre IH].
      - cbn [app]; now rewrite re_search_unfold, Hm.
      - cbn [app]; rewrite re_search_unfold.
        replace (re_match fence_pattern
                   (c :: pre ++ fence_open ++ body ++ fence_close ++ post))
          with (@None captures); [exact IH|].
        unfold re_match, fence_pattern, fence_open; cbn [re_m py
          list_ascii_of_string app starts_with].
        change (code "`"%char) with (code backtick).
        rewrite N.eqb_sym, Hc; reflexivity. }
    now rewrite Hs.
Qed.

Lemma json_str_fenced_witness :
  json_str (py "no fence here") = py "no fence here"
  /\ json_str (py "Here you go:" ++ fence_open ++ py "{}" ++ fence_close
               ++ py " Enjoy!")
     = py "{}".
Proof.
  split.
  - apply (proj1 json_str_fenced); reflexivity.
  - apply (proj2 json_str_fenced); repeat constructor.
Defined.

(* ------------------------------------------------------------------ *)
(** ** [app.py]: [generate_shopping_list_with_ai]

    The collaborators are parameters: whether the YouTube client is there,
    what the collector returns for a dish (always a dictionary with its
    four keys, hence true as a condition), and what the language model
    answers for the dishes and the list found so far. *)

Module Result.
Record t : Type := Make {
  shopping_list : dict (list str);
  video_tutorials : list Tutorial.t;
  cooking_instructions : list str;
  recipe_data : dict Summary.t
}.
End Result.

Section Generate.
Variable list_of_set : list str -> list str.
Variable youtube_ready : bool.
Variable get_recipe_data : str -> RecipeData.t.
Variable generate_ai_shopping_list :
  list str -> dict (list str) -> dict (list str).

(** The loop over the dishes. *)
Definition collect_dishes (dishes : list str)
  : list str * list Tutorial.t * list str * dict Summary.t :=
  fold_left
    (fun '(all_ingredients, tutorials, instructions, data) dish =>
       let recipe_data := get_recipe_data dish in
       let summary := generate_recipe_summary list_of_set recipe_data in
       (all_ingredients ++ get_or (RecipeData.ingredients recipe_data) [],
        tutorials ++ Summary.video_tutorials summary,
        instructions ++ Summary.cooking_instructions summary,
        dict_set data dish summary))
    dishes ([], [], [], []).

(** The result before the language model is asked. *)
Definition youtube_result (dishes : list str) (use_youtube : bool)
  : Result.t :=
  if use_youtube && youtube_ready then
    let '(all_ingredients, tutorials, instructions, data) :=
      collect_dishes dishes in
    Result.Make
      (if negb (length all_ingredients =? 0)
       then process_ingredients_list list_of_set all_ingredients
       else [])
      tutorials instructions data
  else Result.Make [] [] [] [].

Definition generate_shopping_list_with_ai (dishes : list str)
           (use_youtube : bool) : Result.t :=
  let result := youtube_result dishes use_youtube in
  let ai_list :=
    generate_ai_shopping_list dishes (Result.shopping_list result) in
  Result.Make
    (if negb (length (Result.shopping_list result) =? 0)
     then merge_shopping_lists list_of_set
            [Result.shopping_list result; ai_list]
     else ai_list)
    (Result.video_tutorials result)
    (Result.cooking_instructions result)
    (Result.recipe_data result).

Hypothesis list_of_set_In : forall l x, In x (list_of_set l) <-> In x l.

Lemma dict_get_items_under (c x : str) (d : dict (list str)) (v : list str) :
  dict_get c d = Some v -> In x v -> In x (items_under c d).
Proof.
  intros Hv Hx; induction d as [|[k w] d IH]; [discriminate|].
  rewrite items_under_cons; simpl in Hv.
  destruct (str_eqb c k); apply in_or_app;
    [injection Hv as ->; now left | right; now apply IH].
Qed.

(** X13: without YouTube the result is the answer of the language model as
    it came, with no tutorial and no instruction; and in every case each
    item of that answer, and each item of the list made from the videos, is
    in the final list under its category. *)
Theorem generate_shopping_list_with_ai_keeps_items (dishes : list str)
        (use_youtube : bool) :
  let found :=
    Result.shopping_list (youtube_result dishes use_youtube) in
  let ai_list := generate_ai_shopping_list dishes found in
  let final :=
    Result.shopping_list (generate_shopping_list_with_ai dishes use_youtube) in
  (use_youtube && youtube_ready = false ->
   generate_shopping_list_with_ai dishes use_youtube
   = Result.Make (generate_ai_shopping_list dishes []) [] [] [])
  /\ (found = [] -> final = ai_list)
  /\ (forall c v x,
         dict_get c ai_list = Some v -> In x v ->
         exists items, dict_get c final = Some items /\ In x items)
  /\ (forall c v x,
         dict_get c found = Some v -> In x v ->
         exists items, dict_get c final = Some items /\ In x items).
Proof.
  cbv zeta; unfold generate_shopping_list_with_ai; cbv zeta.
  cbn [Result.shopping_list].
  split; [|split; [|split]].
  - intros H; unfold youtube_result; rewrite H; reflexivity.
  - intros ->; reflexivity.
  - intros c v x Hv Hx.
    destruct (Result.shopping_list (youtube_result dishes use_youtube))
      as [|e found] eqn:E.
    + exists v; auto.
    + cbn [length Nat.eqb negb].
      rewrite merge_shopping_lists_get; cbn [existsb flat_map].
      rewrite (mentions_dict_get c (generate_ai_shopping_list _ _)), Hv.
      cbn [truthy]; rewrite !orb_true_r.
      eexists; split; [reflexivity|].
      apply (canon_In list_of_set list_of_set_In).
      rewrite !in_app_iff; right; left.
      now apply (@dict_get_items_under c x _ v Hv).
  - intros c v x Hv Hx.
    destruct (Result.shopping_list (youtube_result dishes use_youtube))
      as [|e found] eqn:E; [discriminate|].
    cbn [length Nat.eqb negb].
    rewrite merge_shopping_lists_get; cbn [existsb flat_map].
    rewrite (mentions_dict_get c (e :: found)), Hv; cbn [truthy orb].
    eexists; split; [reflexivity|].
    apply (canon_In list_of_set list_of_set_In).
    rewrite !in_app_iff; left.
    now apply (@dict_get_items_under c x _ v Hv).
Qed.

End Generate.

Definition pancake_data : RecipeData.t :=
  RecipeData.Make
    (Some (py "pancakes"))
    (Some [ Video.Make (Some (py "Pancakes")) (Some (py "v1"))
              (Some (py "Ann"))
              (Some (py "First add 2 cups of flour, then mix well.")) ])
    (Some (map py ["2 cups of flour"; "3 Eggs"]%string)).

Definition model_answer : dict (list str) :=
  [ (py "Dairy & Eggs", map py ["1 cup milk"]%string);
    (py "Pantry Staples", map py ["2 cups of flour"; "1 tsp salt"]%string) ].

Lemma generate_shopping_list_with_ai_keeps_items_witness :
  Result.shopping_list
    (generate_shopping_list_with_ai first_seen true (fun _ => pancake_data)
       (fun _ _ => model_answer) [py "pancakes"] true)
  = [ (py "Dairy & Eggs", map py ["1 cup milk"; "3 eggs"]%string);
      (py "Pantry Staples", map py ["1 tsp salt"; "2 cups of flour"]%string) ]
  /\ generate_shopping_list_with_ai first_seen true (fun _ => pancake_data)
       (fun _ _ => model_answer) [py "pancakes"] false
     = Result.Make model_answer [] [] []
  /\ exists items,
       dict_get (py "Dairy & Eggs")
         (Result.shopping_list
            (generate_shopping_list_with_ai first_seen true
               (fun _ => pancake_data) (fun _ _ => model_answer)
               [py "pancakes"] true))
       = Some items
       /\ In (py "1 cup milk") items.
Proof.
  split; [vm_compute; reflexivity|].
  destruct (@generate_shopping_list_with_ai_keeps_items
              first_seen true (fun _ => pancake_data)
              (fun _ _ => model_answer) first_seen_In [py "pancakes"] false)
    as (Hoff & _).
  destruct (@generate_shopping_list_with_ai_keeps_items
              first_seen true (fun _ => pancake_data)
              (fun _ _ => model_answer) first_seen_In [py "pancakes"] true)
    as (_ & _ & Hai & _).
  split; [apply Hoff; reflexivity|].
  apply (Hai (py "Dairy & Eggs") (map py ["1 cup milk"]%string)
             (py "1 cup milk")); [reflexivity | now left].
Defined.

(* ------------------------------------------------------------------ *)
(** ** [youtube_collector.py]: [extract_ingredients_from_transcript] *)

(** The class [\w] on [str] patterns: letters, digits and other numeric
    characters, and the underscore. *)
Definition isword (c : ascii) : bool :=
  in_range 48 57 c || in_range 65 90 c || in_range 97 122 c
  || (code c =? 95)%N
  || (code c =? 170)%N || (code c =? 178)%N || (code c =? 179)%N
  || (code c =? 181)%N || (code c =? 185)%N || (code c =? 186)%N
  || in_range 188 190 c
  || in_range 192 214 c || in_range 216 246 c || in_range 248 255 c.

(** The class [[\w\s]] *)
Definition word_or_space (c : ascii) : bool := isword c || isspace c.

(** One letter of a pattern under [re.IGNORECASE]: the character whose
    lower case is that of the letter. *)
Definition iletter (l : ascii) (c : ascii) : bool :=
  (code (lower_char c) =? code (lower_char l))%N.

(** A word of a pattern under [re.IGNORECASE]. *)
Fixpoint IStr (w : str) : regex :=
  match w with
  | [] => Eps
  | l :: w' => Seq (Class (iletter l)) (IStr w')
  end.

(** [(?:word)s?], as in [cups?] *)
Definition plural (w : string) : regex :=
  Seq (IStr (py w)) (Opt (Class (iletter "s"))).

(** [(?:cups?|tablespoons?|teaspoons?|tbsp|tsp|oz|pounds?|lbs?|grams?|g|ml|liters?)] *)
Definition measure_re : regex :=
  Alt (plural "cup")
 (Alt (plural "tablespoon")
 (Alt (plural "teaspoon")
 (Alt (IStr (py "tbsp"))
 (Alt (IStr (py "tsp"))
 (Alt (IStr (py "oz"))
 (Alt (plural "pound")
 (Alt (plural "lb")
 (Alt (plural "gram")
 (Alt (IStr (py "g"))
 (Alt (IStr (py "ml"))
      (plural "liter"))))))))))).

(** [(?:chopped|diced|sliced|minced|grated)] *)
Definition cut_re : regex :=
  Alt (IStr (py "chopped"))
 (Alt (IStr (py "diced"))
 (Alt (IStr (py "sliced"))
 (Alt (IStr (py "minced"))
      (IStr (py "grated"))))).

(** The four patterns, each one group. *)
Definition ingredient_patterns : list regex :=
  [ (* digits, measure, spaces, optional "of", words *)
    Group 1
      (Seq (Plus isdigit)
      (Seq (Star isspace)
      (Seq measure_re
      (Seq (Plus isspace)
      (Seq (Opt (Seq (IStr (py "of")) (Plus isspace)))
           (Plus word_or_space))))));
    (* digits, spaces, words, measure *)
    Group 1
      (Seq (Plus isdigit)
      (Seq (Plus isspace)
      (Seq (Plus word_or_space) measure_re)));
    (* a pinch / dash / handful of words *)
    Group 1
      (Seq (IStr (py "a"))
      (Seq (Plus isspace)
      (Seq (Alt (IStr (py "pinch"))
           (Alt (IStr (py "dash")) (IStr (py "handful"))))
      (Seq (Plus isspace)
      (Seq (IStr (py "of"))
      (Seq (Plus isspace)
           (Plus word_or_space)))))));
    (* digits, spaces, words, a way of cutting *)
    Group 1
      (Seq (Plus isdigit)
      (Seq (Plus isspace)
      (Seq (Plus word_or_space) cut_re))) ].

(** The match at the front of [s]: its groups and its length. *)
Definition match_at (r : regex) (s : str) : option (captures * nat) :=
  re_m r s [] (fun s' caps => Some (caps, length s - length s')).

(** [re.findall] for a pattern with one group: the group of every match,
    the matches being looked for from left to right, each after the end of
    the one before.  [skip] counts the characters still inside the last
    match. *)
Fixpoint findall_from (r : regex) (s : str) (skip : nat) {struct s}
  : list str :=
  match skip with
  | S n =>
      match s with
      | [] => []
      | _ :: s' => findall_from r s' n
      end
  | 0 =>
      match match_at r s with
      | Some (caps, n) =>
          group 1 caps
          :: match s with
             | [] => []
             | _ :: s' => findall_from r s' (n - 1)
             end
      | None =>
          match s with
          | [] => []
          | _ :: s' => findall_from r s' 0
          end
      end
  end.

Definition re_findall (r : regex) (s : str) : list str := findall_from r s 0.

Section Collector.
Variable list_of_set : list str -> list str.

Definition extract_ingredients_from_transcript (transcript : str)
  : list str :=
  let ingredients :=
    fold_left (fun ingredients pattern =>
                 ingredients ++ re_findall pattern transcript)
              ingredient_patterns [] in
  let cleaned_ingredients :=
    fold_left
      (fun cleaned_ingredients ingredient =>
         let ingredient := strip ingredient in
         if (3 <? length ingredient) && (length ingredient <? 100)
         then cleaned_ingredients ++ [ingredient]
         else cleaned_ingredients)
      ingredients [] in
  list_of_set cleaned_ingredients.

End Collector.


(** Every character, for tests on classes. *)
Definition all_ascii : list ascii := map ascii_of_nat (seq 0 256).

Lemma all_ascii_In (c : ascii) : In c all_ascii.
Proof.
  unfold all_ascii; apply in_map_iff; exists (nat_of_ascii c); split.
  - apply ascii_nat_embedding.
  - apply in_seq; pose proof (nat_ascii_bounded c); lia.
Qed.

(** Every character of class [cls] satisfies [P]. *)
Definition class_sub (cls P : ascii -> bool) : bool :=
  forallb (fun c => implb (cls c) (P c)) all_ascii.

Lemma class_sub_spec (cls P : ascii -> bool) (c : ascii) :
  class_sub cls P = true -> cls c = true -> P c = true.
Proof.
  unfold class_sub; rewrite forallb_forall; intros H Hc.
  specialize (H c (all_ascii_In c)); now rewrite Hc in H.
Qed.

(** All the words of the pattern are made of characters of [P]. *)
Fixpoint made_of (P : ascii -> bool) (r : regex) : bool :=
  match r with
  | Eps => true
  | Str w => forallb P w
  | Class cls | Star cls => class_sub cls P
  | Seq r1 r2 | Alt r1 r2 => made_of P r1 && made_of P r2
  | Opt r1 | Group _ r1 => made_of P r1
  end.

Lemma made_of_spec (P : ascii -> bool) (r : regex) (m : str) :
  made_of P r = true -> lang r m -> Forall (fun c => P c = true) m.
Proof.
  revert m; induction r as [|w|cls|cls|r1 IH1 r2 IH2|r1 IH1 r2 IH2|r1 IH1
                            |j r1 IH1]; cbn [made_of lang]; intros m H L.
  - subst m; constructor.
  - subst m; apply Forall_forall; now apply forallb_forall.
  - destruct L as (c & -> & Hc); repeat constructor.
    now apply (class_sub_spec _ _ _ H).
  - eapply Forall_impl; [|exact L]; intros c Hc.
    now apply (class_sub_spec _ _ _ H).
  - apply andb_true_iff in H as [H1 H2].
    destruct L as (m1 & m2 & -> & L1 & L2); apply Forall_app; auto.
  - apply andb_true_iff in H as [H1 H2]; destruct L; auto.
  - destruct L as [-> | L]; [constructor | auto].
  - auto.
Qed.

(** All the words of the pattern start with a character of [P]. *)
Fixpoint starts_in (P : ascii -> bool) (r : regex) : bool :=
  match r with
  | Class cls => class_sub cls P
  | Seq r1 _ => starts_in P r1
  | Alt r1 r2 => starts_in P r1 && starts_in P r2
  | Group _ r1 => starts_in P r1
  | Eps | Str _ | Star _ | Opt _ => false
  end.

Lemma starts_in_spec (P : ascii -> bool) (r : regex) (m : str) :
  starts_in P r = true -> lang r m ->
  exists c rest, m = c :: rest /\ P c = true.
Proof.
  revert m; induction r as [|w|cls|cls|r1 IH1 r2 IH2|r1 IH1 r2 IH2|r1 IH1
                            |j r1 IH1]; cbn [starts_in lang]; intros m H L;
    try discriminate.
  - destruct L as (c & -> & Hc); exists c, []; split; [reflexivity|].
    now apply (class_sub_spec _ _ _ H).
  - destruct L as (m1 & m2 & -> & L1 & L2).
    destruct (IH1 _ H L1) as (c & rest & -> & Hc).
    now exists c, (rest ++ m2).
  - apply andb_true_iff in H as [H1 H2]; destruct L; auto.
  - auto.
Qed.

(** Every string that [re.findall] returns is a word of the pattern, found
    in the input. *)
Lemma findall_from_In (r : regex) (s : str) (skip : nat) (m : str) :
  In m (findall_from (Group 1 r) s skip) ->
  lang r m /\ exists pre rest, s = pre ++ m ++ rest.
Proof.
  assert (Hat : forall t caps n,
             match_at (Group 1 r) t = Some (caps, n) ->
             lang r (group 1 caps)
             /\ exists rest, t = group 1 caps ++ rest).
  { intros t caps n H; unfold match_at in H.
    apply group_sound in H as (w & t' & caps' & -> & L & H & _).
    injection H as <- _; cbn [group Nat.eqb]; split; [exact L|].
    now exists t'. }
  revert skip; induction s as [|c s IH]; intros skip.
  - destruct skip as [|n]; cbn [findall_from]; [|intros []].
    destruct (match_at (Group 1 r) []) as [[caps n]|] eqn:E; [|intros []].
    intros [<- | []]; destruct (Hat _ _ _ E) as (L & rest & Hr).
    split; [exact L|]; exists [], rest; exact Hr.
  - assert (Htail : forall k, In m (findall_from (Group 1 r) s k) ->
                      lang r m /\ exists pre rest, c :: s = pre ++ m ++ rest).
    { intros k H; destruct (IH _ H) as (L & pre & rest & ->).
      split; [exact L|]; now exists (c :: pre), rest. }
    destruct skip as [|n]; cbn [findall_from]; [|apply Htail].
    destruct (match_at (Group 1 r) (c :: s)) as [[caps n]|] eqn:E;
      [|apply Htail].
    intros [<- | H]; [|now apply (Htail _ H)].
    destruct (Hat _ _ _ E) as (L & rest & Hr).
    split; [exact L|]; exists [], rest; exact Hr.
Qed.

Lemma strip_keeps_head (c : ascii) (rest : str) :
  isspace c = false -> exists rest', strip (c :: rest) = c :: rest'.
Proof.
  intros Hc.
  destruct (strip (c :: rest)) as [|d rest'] eqn:E;
    [now apply strip_nonempty in E|].
  exists rest'; f_equal.
  unfold strip in E; simpl in E; rewrite Hc in E.
  destruct (rstrip_prefix (c :: rest)) as [post Hp].
  rewrite E in Hp; now injection Hp as ->.
Qed.

(** A digit, or the letter a in either case. *)
Definition digit_or_a (c : ascii) : bool := isdigit c || iletter "a" c.

Section CollectorFacts.
Variable list_of_set : list str -> list str.
Hypothesis list_of_set_NoDup : forall l, NoDup (list_of_set l).
Hypothesis list_of_set_In : forall l x, In x (list_of_set l) <-> In x l.

Lemma findall_loop (patterns : list regex) (transcript : str)
      (acc : list str) :
  fold_left (fun ingredients pattern =>
               ingredients ++ re_findall pattern transcript)
            patterns acc
  = acc ++ flat_map (fun pattern => re_findall pattern transcript) patterns.
Proof.
  revert acc; induction patterns as [|p ps IH]; intros acc; simpl.
  - now rewrite app_nil_r.
  - now rewrite IH, app_assoc.
Qed.

Lemma cleaning_loop (ingredients acc : list str) :
  fold_left
    (fun cleaned_ingredients ingredient =>
       let ingredient := strip ingredient in
       if (3 <? length ingredient) && (length ingredient <? 100)
       then cleaned_ingredients ++ [ingredient]
       else cleaned_ingredients)
    ingredients acc
  = acc ++ filter (fun i => (3 <? length i) && (length i <? 100))
                  (map strip ingredients).
Proof.
  revert acc; induction ingredients as [|x l IH]; intros acc; simpl.
  - now rewrite app_nil_r.
  - rewrite IH.
    destruct ((3 <? length (strip x)) && (length (strip x) <? 100));
      [now rewrite <- app_assoc | reflexivity].
Qed.

(** X14: every ingredient that the collector extracts from a transcript
    has no whitespace at either end, has between 4 and 99 characters, is a
    part of the transcript as it stands there, is made of word characters
    and whitespace only, and starts with a digit or with the letter a; no
    ingredient comes twice. *)
Theorem extract_ingredients_from_transcript_shape (transcript : str) :
  NoDup (extract_ingredients_from_transcript list_of_set transcript)
  /\ Forall (fun ingredient =>
               trimmed ingredient
               /\ 4 <= length ingredient <= 99
               /\ contains ingredient transcript = true
               /\ Forall (fun c => word_or_space c = true) ingredient
               /\ exists c rest, ingredient = c :: rest
                                 /\ digit_or_a c = true)
            (extract_ingredients_from_transcript list_of_set transcript).
Proof.
  unfold extract_ingredients_from_transcript; cbv zeta.
  split; [apply list_of_set_NoDup|].
  apply Forall_forall; intros i Hi.
  apply (proj1 (list_of_set_In _ _)) in Hi.
  rewrite cleaning_loop, findall_loop in Hi; cbn [app] in Hi.
  apply filter_In in Hi as [Hi Hlen].
  apply in_map_iff in Hi as (m & <- & Hm).
  apply in_flat_map in Hm as (p & Hp & Hm).
  apply andb_true_iff in Hlen as [H3 H100].
  apply Nat.ltb_lt in H3; apply Nat.ltb_lt in H100.
  assert (Hpat : exists r, p = Group 1 r
                           /\ made_of word_or_space r = true
                           /\ starts_in digit_or_a r = true).
  { unfold ingredient_patterns in Hp; cbn [In] in Hp.
    destruct Hp as [<- | [<- | [<- | [<- | []]]]];
      eexists; (split; [reflexivity|]); split; vm_compute; reflexivity. }
  destruct Hpat as (r & -> & Hchars & Hstart).
  apply findall_from_In in Hm as (L & pre & rest & Ht).
  pose proof (@made_of_spec _ _ _ Hchars L) as Hall.
  destruct (@starts_in_spec _ _ _ Hstart L) as (c & m' & -> & Hc).
  assert (Hsp : isspace c = false).
  { revert Hc; clear; destruct c as [[] [] [] [] [] [] [] []];
      vm_compute; auto. }
  destruct (strip_substring (c :: m')) as (pre' & post' & Hs).
  split; [apply strip_trimmed|].
  split; [lia|].
  split.
  { apply contains_iff; exists (pre ++ pre'), (post' ++ rest).
    rewrite Ht, Hs at 1; now rewrite <- !app_assoc. }
  split.
  { rewrite Hs in Hall; now apply Forall_substring in Hall. }
  destruct (@strip_keeps_head c m' Hsp) as (rest' & ->).
  now exists c, rest'.
Qed.

End CollectorFacts.

Lemma extract_ingredients_from_transcript_shape_witness :
  extract_ingredients_from_transcript first_seen
    (py "First add 2 cups of flour, then A Pinch of salt. Mix 10 g sugar!")
  = map py ["2 cups of flour"; "10 g sugar"; "10 g sug";
            "A Pinch of salt"]%string
  /\ NoDup (extract_ingredients_from_transcript first_seen
              (py "First add 2 cups of flour, then A Pinch of salt. Mix 10 g sugar!")).
Proof.
  split; [vm_compute; reflexivity|].
  apply (extract_ingredients_from_transcript_shape
           first_seen first_seen_NoDup first_seen_In).
Defined.

(* ------------------------------------------------------------------ *)
(** ** [youtube_collector.py]: [get_recipe_data]

    The search and the transcript service are parameters.  A video is the
    dictionary that the search made; [video["video_id"]] fails on one that
    has no such key, and the failure ends the call ([None]).  The key
    ["extracted_ingredients"], which the processor never reads, is not
    kept in [Video.t]. *)

Section GetRecipeData.
Variable list_of_set : list str -> list str.
Variable search_recipe_videos : str -> list Video.t.
Variable get_video_transcript : str -> option str.

(** [video["transcript"] = transcript] *)
Definition set_transcript (video : Video.t) (transcript : str) : Video.t :=
  Video.Make (Video.title video) (Video.video_id video)
             (Video.channel_title video) (Some transcript).

(** The loop over the videos found: the videos kept and the ingredients
    gathered so far. *)
Definition collect_videos (videos : list Video.t)
  : option (list Video.t * list str) :=
  fold_left
    (fun state video =>
       match state with
       | None => None
       | Some (kept, ingredients) =>
           match Video.video_id video with
           | None => None
           | Some video_id =>
               match get_video_transcript video_id with
               | Some transcript =>
                   if negb (length transcript =? 0) then
                     Some (kept ++ [set_transcript video transcript],
                           ingredients
                           ++ extract_ingredients_from_transcript
                                list_of_set transcript)
                   else Some (kept ++ [video], ingredients)
               | None => Some (kept ++ [video], ingredients)
               end
           end
       end)
    videos (Some ([], [])).

Definition get_recipe_data (dish_name : str) : option RecipeData.t :=
  match collect_videos (search_recipe_videos dish_name) with
  | Some (videos, ingredients) =>
      Some (RecipeData.Make (Some dish_name) (Some videos)
                            (Some (list_of_set ingredients)))
  | None => None
  end.

(** The transcript that the service has for a video, when it is not
    empty. *)
Definition transcript_of (video : Video.t) : option str :=
  match Video.video_id video with
  | Some video_id =>
      match get_video_transcript video_id with
      | Some transcript =>
          if negb (length transcript =? 0) then Some transcript else None
      | None => None
      end
  | None => None
  end.

(** A video as it leaves the loop. *)
Definition watched (video : Video.t) : Video.t :=
  match transcript_of video with
  | Some transcript => set_transcript video transcript
  | None => video
  end.

Definition ingredients_of (video : Video.t) : list str :=
  match transcript_of video with
  | Some transcript =>
      extract_ingredients_from_transcript list_of_set transcript
  | None => []
  end.

Lemma collect_videos_failed (videos : list Video.t) :
  fold_left
    (fun state video =>
       match state with
       | None => None
       | Some (kept, ingredients) =>
           match Video.video_id video with
           | None => None
           | Some video_id =>
               match get_video_transcript video_id with
               | Some transcript =>
                   if negb (length transcript =? 0) then
                     Some (kept ++ [set_transcript video transcript],
                           ingredients
                           ++ extract_ingredients_from_transcript
                                list_of_set transcript)
                   else Some (kept ++ [video], ingredients)
               | None => Some (kept ++ [video], ingredients)
               end
           end
       end)
    videos None = None.
Proof. induction videos as [|v vs IH]; [reflexivity | exact IH]. Qed.

Lemma collect_videos_loop (videos kept : list Video.t)
      (ingredients : list str) :
  fold_left
    (fun state video =>
       match state with
       | None => None
       | Some (kept, ingredients) =>
           match Video.video_id video with
           | None => None
           | Some video_id =>
               match get_video_transcript video_id with
               | Some transcript =>
                   if negb (length transcript =? 0) then
                     Some (kept ++ [set_transcript video transcript],
                           ingredients
                           ++ extract_ingredients_from_transcript
                                list_of_set transcript)
                   else Some (kept ++ [video], ingredients)
               | None => Some (kept ++ [video], ingredients)
               end
           end
       end)
    videos (Some (kept, ingredients))
  = if forallb (fun video => truthy (Video.video_id video)) videos
    then Some (kept ++ map watched videos,
               ingredients ++ flat_map ingredients_of videos)
    else None.
Proof.
  revert kept ingredients; induction videos as [|v vs IH];
    intros kept ingredients; cbn [fold_left forallb map flat_map].
  - now rewrite !app_nil_r.
  - unfold watched at 1, ingredients_of at 1, transcript_of.
    destruct (Video.video_id v) as [video_id|]; cbn [truthy andb];
      [|apply collect_videos_failed].
    destruct (get_video_transcript video_id) as [transcript|];
      [destruct (negb (length transcript =? 0))|];
      rewrite IH, <- !app_assoc; reflexivity.
Qed.

Hypothesis list_of_set_NoDup : forall l, NoDup (list_of_set l).
Hypothesis list_of_set_In : forall l x, In x (list_of_set l) <-> In x l.

Lemma tutorial_of_watched (video : Video.t) :
  tutorial_of (watched video) = tutorial_of video.
Proof. unfold watched; now destruct (transcript_of video). Qed.

Lemma watched_has_transcript (video : Video.t) :
  Video.transcript video = None ->
  has_transcript (watched video) = truthy (transcript_of video).
Proof.
  intros Hnone; unfold watched, transcript_of.
  destruct (Video.video_id video) as [video_id|];
    [|unfold has_transcript; now rewrite Hnone].
  destruct (get_video_transcript video_id) as [transcript|];
    [|unfold has_transcript; now rewrite Hnone].
  destruct (negb (length transcript =? 0)) eqn:E;
    [exact E | unfold has_transcript; now rewrite Hnone].
Qed.

(** X15: when every video found has its id, and none a transcript yet (as
    the search makes them), the collector returns the dish name as given,
    every video found, in the order of the search, with the transcript
    that the service has for it when that is not empty, and as ingredients
    those extracted from these transcripts, each once; the summary of that
    data counts all the videos found and shows a tutorial for exactly
    those with a transcript.  When a video has no id, the call fails. *)
Theorem get_recipe_data_collects (dish_name : str) :
  let found := search_recipe_videos dish_name in
  (Forall (fun video => truthy (Video.video_id video) = true) found ->
   Forall (fun video => Video.transcript video = None) found ->
   exists videos ingredients,
     get_recipe_data dish_name
     = Some (RecipeData.Make (Some dish_name) (Some videos)
                             (Some ingredients))
     /\ videos = map watched found
     /\ NoDup ingredients
     /\ (forall x, In x ingredients
                   <-> exists video transcript,
                         In video found
                         /\ transcript_of video = Some transcript
                         /\ In x (extract_ingredients_from_transcript
                                    list_of_set transcript))
     /\ let summary :=
          generate_recipe_summary list_of_set
            (RecipeData.Make (Some dish_name) (Some videos)
                             (Some ingredients)) in
        Summary.dish_name summary = dish_name
        /\ Summary.total_videos summary = length found
        /\ Summary.video_tutorials summary
           = map tutorial_of
                 (filter (fun video => truthy (transcript_of video)) found))
  /\ ((exists video, In video found /\ Video.video_id video = None) ->
      get_recipe_data dish_name = None).
Proof.
  cbv zeta; unfold get_recipe_data, collect_videos.
  rewrite collect_videos_loop; cbn [app].
  split.
  - intros Hids Hnone.
    assert (E : forallb (fun video => truthy (Video.video_id video))
                        (search_recipe_videos dish_name) = true).
    { apply forallb_forall; now apply Forall_forall. }
    rewrite E; eexists; eexists; split; [reflexivity|].
    split; [reflexivity|].
    split; [apply list_of_set_NoDup|].
    split.
    { intros x; rewrite list_of_set_In, in_flat_map; unfold ingredients_of.
      split.
      - intros (video & Hv & Hx).
        destruct (transcript_of video) as [transcript|] eqn:Et; [|destruct Hx].
        now exists video, transcript.
      - intros (video & transcript & Hv & Et & Hx).
        exists video; rewrite Et; auto. }
    unfold generate_recipe_summary, summarize_videos; cbv zeta.
    rewrite summarize_loop.
    cbn [Summary.dish_name Summary.total_videos Summary.video_tutorials
           RecipeData.dish_name RecipeData.videos get_or app].
    split; [reflexivity|].
    split; [apply length_map|].
    clear E Hids.
    induction (search_recipe_videos dish_name) as [|v vs IH];
      [reflexivity|].
    apply Forall_cons_iff in Hnone as [Hv Hvs].
    cbn [map filter]; rewrite (watched_has_transcript _ Hv).
    destruct (truthy (transcript_of v));
      cbn [map]; rewrite (IH Hvs); [|reflexivity].
    now rewrite tutorial_of_watched.
  - intros (video & Hv & Hid).
    destruct (forallb (fun video => truthy (Video.video_id video))
                      (search_recipe_videos dish_name)) eqn:E;
      [|reflexivity].
    rewrite forallb_forall in E; specialize (E _ Hv).
    rewrite Hid in E; discriminate.
Qed.

End GetRecipeData.

Definition found_videos : list Video.t :=
  [ Video.Make (Some (py "Pancakes")) (Some (py "v1")) (Some (py "Ann")) None;
    Video.Make (Some (py "Crepes")) (Some (py "v2")) (Some (py "Bob")) None;
    Video.Make (Some (py "Waffles")) (Some (py "v3")) (Some (py "Cy")) None ].

Definition transcripts : str -> option str :=
  fun video_id =>
    if str_eqb video_id (py "v1")
    then Some (py "First add 2 cups of flour, then mix well.")
    else if str_eqb video_id (py "v2") then Some (py "")
    else None.

Lemma get_recipe_data_collects_witness :
  get_recipe_data first_seen (fun _ => found_videos) transcripts
                  (py "pancakes")
  = Some (RecipeData.Make
            (Some (py "pancakes"))
            (Some
               [ Video.Make (Some (py "Pancakes")) (Some (py "v1"))
                   (Some (py "Ann"))
                   (Some (py "First add 2 cups of flour, then mix well."));
                 Video.Make (Some (py "Crepes")) (Some (py "v2"))
                   (Some (py "Bob")) None;
                 Video.Make (Some (py "Waffles")) (Some (py "v3"))
                   (Some (py "Cy")) None ])
            (Some [py "2 cups of flour"]))
  /\ exists videos ingredients,
       get_recipe_data first_seen (fun _ => found_videos) transcripts
                       (py "pancakes")
       = Some (RecipeData.Make (Some (py "pancakes")) (Some videos)
                               (Some ingredients))
       /\ Summary.total_videos
            (generate_recipe_summary first_seen
               (RecipeData.Make (Some (py "pancakes")) (Some videos)
                                (Some ingredients))) = 3
       /\ map Tutorial.video_id
              (Summary.video_tutorials
                 (generate_recipe_summary first_seen
                    (RecipeData.Make (Some (py "pancakes")) (Some videos)
                                     (Some ingredients))))
          = [py "v1"].
Proof.
  split; [vm_compute; reflexivity|].
  destruct (proj1 (@get_recipe_data_collects
                     first_seen (fun _ => found_videos) transcripts
                     first_seen_NoDup first_seen_In (py "pancakes")))
    as (videos & ingredients & Hdata & _ & _ & _ & _ & Htotal & Htut).
  - repeat constructor.
  - repeat constructor.
  - exists videos, ingredients; split; [exact Hdata|].
    split; [exact Htotal|].
    rewrite Htut; vm_compute; reflexivity.
Defined.
